(** * MOS Agent (src/mos_agent.py): a shallow embedding and its properties

    The Python module keeps its session in module-level globals and talks
    to the file system, to Playwright and to an LLM.  Globals become a
    record threaded through a small state-and-exception monad; the outside
    world becomes explicit oracles.  Definitions keep the names of the
    source and quote the lines they embed. *)

From Stdlib Require Import List String Ascii ZArith Lia Bool Arith.
Import ListNotations.
Open Scope string_scope.

(* ================================================================== *)
(** ** Python values

    [last_search_data : Optional[Any]] and the [LLM_TOOLS] literal both
    hold untyped Python data; dictionaries keep insertion order. *)

#[local] Set Warnings "-register-all".

Inductive PyValue : Type :=
| PyNone
| PyBool (b : bool)
| PyInt (z : Z)
| PyStr (s : string)
| PyList (items : list PyValue)
| PyDict (entries : list (string * PyValue)).

(** [d[k]] on a dictionary; [None] where Python raises [KeyError] or
    [TypeError]. *)
Fixpoint dict_get (k : string) (entries : list (string * PyValue)) : option PyValue :=
  match entries with
  | [] => None
  | (k', v) :: rest => if String.eqb k k' then Some v else dict_get k rest
  end.

Definition py_get (k : string) (v : PyValue) : option PyValue :=
  match v with
  | PyDict entries => dict_get k entries
  | _ => None
  end.

(** [v[k1][k2]...] *)
Fixpoint py_path (ks : list string) (v : PyValue) : option PyValue :=
  match ks with
  | [] => Some v
  | k :: ks' => match py_get k v with
                | Some v' => py_path ks' v'
                | None => None
                end
  end.

(** [str(b)] as an f-string prints it. *)
Definition str_of_bool (b : bool) : string := if b then "True" else "False".

(** The double-quote character, for selectors that contain it. *)
Definition dq : string := String (ascii_of_nat 34) EmptyString.

(* ================================================================== *)
(** ** Configuration read at import time (lines 18-32) *)

Record OsEnviron := {
  getenv : string -> option string;   (* os.getenv(name) *)
  home : string                       (* os.path.expanduser("~") *)
}.

Definition getenv_default (e : OsEnviron) (name default : string) : string :=
  match getenv e name with
  | Some v => v
  | None => default
  end.

Fixpoint ends_with_slash (s : string) : bool :=
  match s with
  | EmptyString => false
  | String c EmptyString => Ascii.eqb c "/"%char
  | String _ rest => ends_with_slash rest
  end.

(** [os.path.join(a, b)] on POSIX for a relative [b]. *)
Definition path_join (a b : string) : string :=
  if String.eqb a "" then b
  else if ends_with_slash a then a ++ b
  else a ++ "/" ++ b.

Definition PROFILE_DIR (e : OsEnviron) : string :=
  getenv_default e "MOS_PROFILE_DIR" "/opt/mos_profile".

Definition FALLBACK_PROFILE_DIR (e : OsEnviron) : string :=
  path_join (home e) ".mos_profile".

Definition RESULTS_PER_QUERY_LIMIT : Z := 20.

(* ================================================================== *)
(** ** The outside world of the session manager *)

Definition Playwright := nat.
Definition BrowserContext := nat.

Inductive Exn : Type :=
| PermissionError (path : string)
| OSError (path : string)
| PlaywrightError
| ValidationError (field : string)
(* the systemic failures of the spec's taxonomy (section 7) *)
| SessionUnavailable
| AuthenticationRequired
| AuthenticationFailed.

Inductive MkdirOutcome := MkdirOk | MkdirPermissionDenied | MkdirOtherError.

Record World := {
  (* what os.makedirs(path, exist_ok=True) does on this path *)
  makedirs_outcome : string -> MkdirOutcome;
  (* async_playwright().start(): the engine, or None when it raises *)
  playwright_start : option Playwright;
  (* whether BrowserContext.close() raises *)
  close_raises : BrowserContext -> bool
}.

(* ================================================================== *)
(** ** Module globals (lines 12, 24, 198-201) and observable effects *)

Record Globals := {
  _play : option Playwright;
  _ctx : option BrowserContext;
  _ctx_headless : option bool;
  _profile_dir_in_use : string;
  last_search_data : PyValue;
  (* effects on the world, oldest first *)
  stdout : list string;
  makedirs_calls : list string;
  closed_contexts : list BrowserContext
}.

Definition set_play (p : option Playwright) (g : Globals) : Globals :=
  {| _play := p; _ctx := _ctx g; _ctx_headless := _ctx_headless g;
     _profile_dir_in_use := _profile_dir_in_use g;
     last_search_data := last_search_data g; stdout := stdout g;
     makedirs_calls := makedirs_calls g; closed_contexts := closed_contexts g |}.

Definition set_ctx (c : option BrowserContext) (g : Globals) : Globals :=
  {| _play := _play g; _ctx := c; _ctx_headless := _ctx_headless g;
     _profile_dir_in_use := _profile_dir_in_use g;
     last_search_data := last_search_data g; stdout := stdout g;
     makedirs_calls := makedirs_calls g; closed_contexts := closed_contexts g |}.

Definition set_last_search_data (v : PyValue) (g : Globals) : Globals :=
  {| _play := _play g; _ctx := _ctx g; _ctx_headless := _ctx_headless g;
     _profile_dir_in_use := _profile_dir_in_use g;
     last_search_data := v; stdout := stdout g;
     makedirs_calls := makedirs_calls g; closed_contexts := closed_contexts g |}.

Definition add_stdout (line : string) (g : Globals) : Globals :=
  {| _play := _play g; _ctx := _ctx g; _ctx_headless := _ctx_headless g;
     _profile_dir_in_use := _profile_dir_in_use g;
     last_search_data := last_search_data g; stdout := stdout g ++ [line];
     makedirs_calls := makedirs_calls g; closed_contexts := closed_contexts g |}.

Definition add_makedirs_call (path : string) (g : Globals) : Globals :=
  {| _play := _play g; _ctx := _ctx g; _ctx_headless := _ctx_headless g;
     _profile_dir_in_use := _profile_dir_in_use g;
     last_search_data := last_search_data g; stdout := stdout g;
     makedirs_calls := makedirs_calls g ++ [path];
     closed_contexts := closed_contexts g |}.

Definition add_closed (c : BrowserContext) (g : Globals) : Globals :=
  {| _play := _play g; _ctx := _ctx g; _ctx_headless := _ctx_headless g;
     _profile_dir_in_use := _profile_dir_in_use g;
     last_search_data := last_search_data g; stdout := stdout g;
     makedirs_calls := makedirs_calls g;
     closed_contexts := closed_contexts g ++ [c] |}.

(* ================================================================== *)
(** ** State and exception monad *)

Inductive Outcome (A : Type) : Type :=
| Returned (a : A)
| Raised (e : Exn).
Arguments Returned {A} a.
Arguments Raised {A} e.

Definition M (A : Type) : Type := Globals -> Outcome A * Globals.

Definition ret {A} (a : A) : M A := fun g => (Returned a, g).
Definition raise {A} (e : Exn) : M A := fun g => (Raised e, g).
Definition bind {A B} (c : M A) (k : A -> M B) : M B :=
  fun g => match c g with
           | (Returned a, g') => k a g'
           | (Raised e, g') => (Raised e, g')
           end.
Definition get : M Globals := fun g => (Returned g, g).
Definition modify (f : Globals -> Globals) : M unit := fun g => (Returned tt, f g).

Notation "x <- c ;; k" := (bind c (fun x => k))
  (at level 61, c at next level, right associativity).
Notation "c ;;; k" := (bind c (fun _ => k))
  (at level 61, right associativity).

(** [try: body except PermissionError: handler] *)
Definition try_except_PermissionError {A} (body : M A) (handler : string -> M A) : M A :=
  fun g => match body g with
           | (Raised (PermissionError p), g') => handler p g'
           | r => r
           end.

Definition print (line : string) : M unit := modify (add_stdout line).

(** [os.makedirs(path, exist_ok=True)] *)
Definition os_makedirs (w : World) (path : string) : M unit :=
  modify (add_makedirs_call path) ;;;
  match makedirs_outcome w path with
  | MkdirOk => ret tt
  | MkdirPermissionDenied => raise (PermissionError path)
  | MkdirOtherError => raise (OSError path)
  end.

(** [await ctx.close()] *)
Definition ctx_close (w : World) (c : BrowserContext) : M unit :=
  if close_raises w c then raise PlaywrightError
  else modify (add_closed c).

(** [await async_playwright().start()] *)
Definition async_playwright_start (w : World) : M Playwright :=
  match playwright_start w with
  | Some p => ret p
  | None => raise PlaywrightError
  end.

(* ================================================================== *)
(** ** Import-time initialisation (lines 12, 24-25, 198-201) *)

Definition globals_at_import (e : OsEnviron) : Globals :=
  {| _play := None; _ctx := None; _ctx_headless := None;
     _profile_dir_in_use := FALLBACK_PROFILE_DIR e;
     last_search_data := PyNone; stdout := []; makedirs_calls := [];
     closed_contexts := [] |}.

Definition module_import (e : OsEnviron) (w : World) : Outcome unit * Globals :=
  (g <- get ;; os_makedirs w (_profile_dir_in_use g)) (globals_at_import e).

(* ================================================================== *)
(** ** Session manager: [_ensure_context] (lines 206-231) *)

(** [_ctx is not None and _ctx_headless == headless] *)
Definition ctx_matches (g : Globals) (headless : bool) : bool :=
  match _ctx g, _ctx_headless g with
  | Some _, Some h => Bool.eqb h headless
  | _, _ => false
  end.

(** Lines 222-225: the candidate list without empty paths and repeats. *)
Fixpoint collect_candidates (cands candidate_paths : list string) : list string :=
  match cands with
  | [] => candidate_paths
  | cand :: rest =>
      if negb (String.eqb cand "") && negb (existsb (String.eqb cand) candidate_paths)
      then collect_candidates rest (candidate_paths ++ [cand])%list
      else collect_candidates rest candidate_paths
  end.

(** Lines 226-231: the loop over the candidates; [attempted_paths] is the
    loop-carried local. *)
Fixpoint try_candidates (w : World) (candidate_paths attempted_paths : list string)
  : M (list string) :=
  match candidate_paths with
  | [] => ret attempted_paths
  | candidate :: rest =>
      let attempted_paths := (attempted_paths ++ [candidate])%list in
      try_except_PermissionError
        (os_makedirs w candidate)
        (fun _ => print ("[mos_agent] cannot create profile dir " ++ candidate
                         ++ ": permission denied")) ;;;
      try_candidates w rest attempted_paths
  end.

Definition _ensure_context (e : OsEnviron) (w : World) (headless : bool)
  : M (option BrowserContext) :=
  g <- get ;;
  if ctx_matches g headless then ret (_ctx g)
  else
    (* async with _ctx_lock: *)
    g <- get ;;
    if ctx_matches g headless then ret (_ctx g)
    else
      match _ctx g with
      | Some c => ctx_close w c ;;; modify (set_ctx None)
      | None => ret tt
      end ;;;
      g <- get ;;
      match _play g with
      | None => p <- async_playwright_start w ;; modify (set_play (Some p))
      | Some _ => ret tt
      end ;;;
      print ("[mos_agent] launching Playwright context (headless="
             ++ str_of_bool headless ++ ")") ;;;
      g <- get ;;
      let candidate_paths :=
        collect_candidates
          [_profile_dir_in_use g; PROFILE_DIR e; FALLBACK_PROFILE_DIR e] [] in
      _ <- try_candidates w candidate_paths [] ;;
      (* the function body ends here: Python returns None *)
      ret None.

(* ================================================================== *)
(** ** Request models (lines 175-193) and their validation

    FastAPI parses the body into the pydantic model before it calls the
    handler.  A raw body is taken already well-typed: a field is present
    with a value of its declared type, or absent. *)

Record SearchRequest := {
  queries : list string;
  max_per_query : Z
}.

Record LogSearchRequest := {
  log_text : string;
  max_queries : Z;
  log_max_per_query : Z
}.

Inductive Role := system | user | assistant | tool.

Record ChatMessage := {
  role : Role;
  content : string;
  tool_call_id : option string
}.

Record RawSearchRequest := {
  raw_queries : option (list string);
  raw_max_per_query : option Z
}.

Record RawLogSearchRequest := {
  raw_log_text : option string;
  raw_max_queries : option Z;
  raw_log_max_per_query : option Z
}.

(** [Field(default, ge=lo, le=hi)] on an int field. *)
Definition int_field (name : string) (default lo hi : Z) (raw : option Z) : Exn + Z :=
  match raw with
  | None => inr default
  | Some v => if ((lo <=? v) && (v <=? hi))%Z then inr v
              else inl (ValidationError name)
  end.

(** [Field(..., min_items=lo, max_items=hi)] on a required list field. *)
Definition list_field {A} (name : string) (lo hi : nat) (raw : option (list A))
  : Exn + list A :=
  match raw with
  | None => inl (ValidationError name)
  | Some l => if (lo <=? List.length l)%nat && (List.length l <=? hi)%nat then inr l
              else inl (ValidationError name)
  end.

(** [Field(..., min_length=lo)] on a required str field. *)
Definition str_field (name : string) (lo : nat) (raw : option string) : Exn + string :=
  match raw with
  | None => inl (ValidationError name)
  | Some s => if (lo <=? String.length s)%nat then inr s
              else inl (ValidationError name)
  end.

Definition SearchRequest_min_items : nat := 1.
Definition SearchRequest_max_items : nat := 25.

Definition validate_SearchRequest (raw : RawSearchRequest) : Exn + SearchRequest :=
  match list_field "queries" SearchRequest_min_items SearchRequest_max_items
                   (raw_queries raw) with
  | inl e => inl e
  | inr qs =>
      match int_field "max_per_query" 5 1 RESULTS_PER_QUERY_LIMIT
                      (raw_max_per_query raw) with
      | inl e => inl e
      | inr m => inr {| queries := qs; max_per_query := m |}
      end
  end.

Definition validate_LogSearchRequest (raw : RawLogSearchRequest)
  : Exn + LogSearchRequest :=
  match str_field "log_text" 1 (raw_log_text raw) with
  | inl e => inl e
  | inr t =>
      match int_field "max_queries" 5 1 25 (raw_max_queries raw) with
      | inl e => inl e
      | inr n =>
          match int_field "max_per_query" 5 1 RESULTS_PER_QUERY_LIMIT
                          (raw_log_max_per_query raw) with
          | inl e => inl e
          | inr m => inr {| log_text := t; max_queries := n; log_max_per_query := m |}
          end
      end
  end.

(** A route with a pydantic body: the handler runs on the validated model
    only; a validation error answers the request without calling it. *)
Definition fastapi_route {Raw Req A} (validate : Raw -> Exn + Req)
  (handler : Req -> M A) (raw : Raw) : M A :=
  match validate raw with
  | inl e => raise e
  | inr req => handler req
  end.

(* ================================================================== *)
(** ** The [/search] handler (lines 234-239)

    [_execute_queries] is called by the handler and defined nowhere in the
    module: the handler is embedded over an arbitrary one. *)

Section Search.
Variable _execute_queries : list string -> Z -> M PyValue.

Definition search (req : SearchRequest) : M PyValue :=
  result <- _execute_queries (queries req) (max_per_query req) ;;
  modify (set_last_search_data result) ;;;
  ret result.

Definition post_search : RawSearchRequest -> M PyValue :=
  fastapi_route validate_SearchRequest search.
End Search.

Section SearchFromLog.
(* the handler of the log route is not in the module either *)
Variable search_from_log : LogSearchRequest -> M PyValue.

Definition post_search_log : RawLogSearchRequest -> M PyValue :=
  fastapi_route validate_LogSearchRequest search_from_log.
End SearchFromLog.

(* ================================================================== *)
(** ** The tool schema sent to the LLM (lines 34-104) *)

Definition int_param (maximum : Z) : PyValue :=
  PyDict [("type", PyStr "integer"); ("minimum", PyInt 1);
          ("maximum", PyInt maximum); ("default", PyInt 5)].

Definition function_tool (name description : string) (properties : list (string * PyValue))
  (required : list string) : PyValue :=
  PyDict [("type", PyStr "function");
          ("function",
            PyDict [("name", PyStr name);
                    ("description", PyStr description);
                    ("parameters",
                      PyDict [("type", PyStr "object");
                              ("properties", PyDict properties);
                              ("required", PyList (map PyStr required))])])].

Definition LLM_TOOLS : list PyValue :=
  [ function_tool "search_mos"
      "Search My Oracle Support for specific error codes or phrases."
      [("queries",
         PyDict [("type", PyStr "array");
                 ("items", PyDict [("type", PyStr "string")]);
                 ("minItems", PyInt 1);
                 ("maxItems", PyInt 5);
                 ("description", PyStr "List of focused MOS search queries.")]);
       ("max_per_query", int_param RESULTS_PER_QUERY_LIMIT)]
      ["queries"];
    function_tool "search_mos_from_log"
      "Derive MOS searches from a raw log snippet."
      [("log_text", PyDict [("type", PyStr "string")]);
       ("max_queries", int_param 25);
       ("max_per_query", int_param RESULTS_PER_QUERY_LIMIT)]
      ["log_text"];
    function_tool "get_document"
      "Retrieve the full content of a specific Oracle Support document by its Doc ID."
      [("doc_id",
         PyDict [("type", PyStr "string");
                 ("description",
                   PyStr "The Doc ID of the Oracle Support document to retrieve.")])]
      ["doc_id"] ].

(** The tool of [LLM_TOOLS] whose [function.name] is [name]. *)
Definition find_tool (name : string) : option PyValue :=
  find (fun t => match py_path ["function"; "name"] t with
                 | Some (PyStr n) => String.eqb n name
                 | _ => false
                 end) LLM_TOOLS.

(** An integer keyword of one parameter of a tool's schema. *)
Definition tool_param_int (tool_name param keyword : string) : option Z :=
  match find_tool tool_name with
  | Some t =>
      match py_path ["function"; "parameters"; "properties"; param; keyword] t with
      | Some (PyInt z) => Some z
      | _ => None
      end
  | None => None
  end.

(** JSON Schema's reading of [minItems]/[maxItems] on an array of [n] items. *)
Definition within_items (lo hi : option Z) (n : nat) : bool :=
  match lo, hi with
  | Some l, Some h => ((l <=? Z.of_nat n) && (Z.of_nat n <=? h))%Z
  | _, _ => false
  end.

Definition search_mos_accepts_queries (qs : list string) : bool :=
  within_items (tool_param_int "search_mos" "queries" "minItems")
               (tool_param_int "search_mos" "queries" "maxItems")
               (List.length qs).

(* ================================================================== *)
(** ** Selector chains (lines 106-136) *)

Definition GLOBAL_SEARCH_ARIA : string :=
  "aria/Global Search[role=" ++ dq ++ "textbox" ++ dq ++ "]".

Definition SEARCH_BOX_SELECTORS : list string :=
  [ "#pt1\:svMenu\:gsb\:subFgsb\:mGlobalSearch\:pt_itG\:\:content";
    GLOBAL_SEARCH_ARIA;
    "input[id*=" ++ dq ++ "mGlobalSearch" ++ dq ++ " i]";
    "div[role=" ++ dq ++ "search" ++ dq ++ "] input";
    "input[aria-label*=" ++ dq ++ "Global Search" ++ dq ++ " i]";
    "input[aria-label*=" ++ dq ++ "Search" ++ dq ++ " i]";
    "input[placeholder*=" ++ dq ++ "Search" ++ dq ++ " i]";
    "input[type=" ++ dq ++ "search" ++ dq ++ "]";
    "input[id*=" ++ dq ++ "search" ++ dq ++ " i]";
    "input[name*=" ++ dq ++ "search" ++ dq ++ " i]" ].

Definition SEARCH_SUBMIT_SELECTORS : list string :=
  [ "#pt1\:svMenu\:gsb\:subFgsb\:menu_pt_cil2\:\:icon";
    "aria/Global Search[role=" ++ dq ++ "image" ++ dq ++ "]";
    "button[type=" ++ dq ++ "submit" ++ dq ++ "][aria-label*=" ++ dq ++ "Search"
      ++ dq ++ " i]" ].

(* ================================================================== *)
(** ** Resilient element locator (spec 4.3) *)

Definition ElementHandle := nat.

(** Modelled from the spec: the [SelectorChain] of section 3, naming its
    logical UI target (section 4.3). *)
Record SelectorChain := {
  target : string;
  candidates : list string
}.

Definition search_box_chain : SelectorChain :=
  {| target := "global search box"; candidates := SEARCH_BOX_SELECTORS |}.

Definition search_submit_chain : SelectorChain :=
  {| target := "search submit"; candidates := SEARCH_SUBMIT_SELECTORS |}.

(** A page answers one resolution attempt: the handle of a visible,
    interactable element, or nothing within the per-candidate timeout. *)
Definition PageOracle := string -> option ElementHandle.

Inductive LocateError : Type :=
| ElementNotFound (logical_target : string) (candidates_tried : nat).

(** Modelled from the spec: the locator [locate(page, chain, timeout)] is
    not in the module, only the selector lists are.  Section 4.3: it
    iterates the chain in order, returns on first success, and on
    exhausting the chain raises [ElementNotFound] with the logical target
    and the number of candidates tried.  [tried] is the list of selectors
    attempted so far, oldest first; it is returned with the result. *)
Fixpoint locate_from (page : PageOracle) (logical_target : string)
  (cands tried : list string) : (LocateError + ElementHandle) * list string :=
  match cands with
  | [] => (inl (ElementNotFound logical_target (List.length tried)), tried)
  | sel :: rest =>
      match page sel with
      | Some h => (inr h, (tried ++ [sel])%list)
      | None => locate_from page logical_target rest (tried ++ [sel])%list
      end
  end.

(** Modelled from the spec: [locate] of section 4.3 on a whole chain. *)
Definition locate (page : PageOracle) (chain : SelectorChain)
  : (LocateError + ElementHandle) * list string :=
  locate_from page (target chain) (candidates chain) [].

(* ================================================================== *)
(** ** Search execution pipeline (spec 3 and 4.4) *)

(** Modelled from the spec: the [SearchResult] of section 3; the module
    has no declaration of it. *)
Record SearchResult := {
  doc_id : option string;
  title : string;
  url : string;
  snippet : string
}.

(** A node of the portal's results list as the DOM has it. *)
Record ResultNode := {
  node_doc_id : option string;
  node_title : option string;
  node_link : option string;
  node_snippet : string
}.

(** Modelled from the spec: extraction is not in the module.  Section 4.4:
    a node missing its title or its link is skipped. *)
Definition parse_node (n : ResultNode) : option SearchResult :=
  match node_title n, node_link n with
  | Some t, Some l =>
      Some {| doc_id := node_doc_id n; title := t; url := l;
              snippet := node_snippet n |}
  | _, _ => None
  end.

(** Modelled from the spec: the deduplication key [doc_id or url] of
    section 3. *)
Definition dedup_key (r : SearchResult) : string :=
  match doc_id r with
  | Some d => if String.eqb d "" then url r else d
  | None => url r
  end.

(** Modelled from the spec: the extraction walk of section 4.4, in DOM
    order, skipping malformed nodes and keys already seen, stopping once
    [cap] results are taken. *)
Fixpoint extract_walk (nodes : list ResultNode) (cap : nat) (seen : list string)
  : list SearchResult :=
  match nodes with
  | [] => []
  | n :: rest =>
      match cap with
      | O => []
      | S cap' =>
          match parse_node n with
          | None => extract_walk rest cap seen
          | Some r =>
              if existsb (String.eqb (dedup_key r)) seen
              then extract_walk rest cap seen
              else r :: extract_walk rest cap' (dedup_key r :: seen)
          end
      end
  end.

(** Modelled from the spec: the per-query cap of section 4.4, the
    caller's [max_per_query] under the hard ceiling. *)
Definition effective_cap (max_per_query : Z) : nat :=
  Z.to_nat (Z.min max_per_query RESULTS_PER_QUERY_LIMIT).

(** Modelled from the spec: result extraction of section 4.4. *)
Definition extract_results (max_per_query : Z) (nodes : list ResultNode)
  : list SearchResult :=
  extract_walk nodes (effective_cap max_per_query) [].

(** What the portal does while one query runs. *)
Record PageBehaviour := {
  (* acquiring an authenticated session (4.1 and 4.2) *)
  session_failure : option Exn;
  (* element resolution on the page *)
  page_oracle : PageOracle;
  (* the results list once the view settles; None on a navigation timeout *)
  results_dom : option (list ResultNode)
}.

Inductive QueryFailure : Type :=
| QElementNotFound (e : LocateError)
| QNavigationTimeout.

Inductive QueryOutcome : Type :=
| QueryResults (rs : list SearchResult)
| QueryFailed (f : QueryFailure)    (* local to the query *)
| QuerySystemic (e : Exn).          (* propagates to the caller *)

(** Modelled from the spec: one query of section 4.4.  Typing the text
    and submitting cannot fail: a submit element that does not resolve
    falls back to a keyboard submit. *)
Definition run_query (page : PageBehaviour) (max_per_query : Z) (query : string)
  : QueryOutcome :=
  match session_failure page with
  | Some e => QuerySystemic e
  | None =>
      match fst (locate (page_oracle page) search_box_chain) with
      | inl e => QueryFailed (QElementNotFound e)
      | inr _ =>
          let _submit := fst (locate (page_oracle page) search_submit_chain) in
          match results_dom page with
          | None => QueryFailed QNavigationTimeout
          | Some nodes => QueryResults (extract_results max_per_query nodes)
          end
      end
  end.

(** The results one query contributes to the aggregate: none when it
    failed. *)
Definition query_results (o : QueryOutcome) : list SearchResult :=
  match o with
  | QueryResults rs => rs
  | _ => []
  end.

(** The portal's behaviour for the i-th query of a batch. *)
Definition Portal := nat -> string -> PageBehaviour.

(** Modelled from the spec: [_execute_queries] is called by [search] and
    is not in the module.  Section 4.4: queries run in submission order;
    a query's local failure counts as zero results and the batch goes on;
    section 7: session and authentication failures propagate. *)
Fixpoint execute_from (portal : Portal) (i : nat) (qs : list string)
  (max_per_query : Z) : Exn + list SearchResult :=
  match qs with
  | [] => inr []
  | q :: rest =>
      match run_query (portal i q) max_per_query q with
      | QuerySystemic e => inl e
      | o =>
          match execute_from portal (S i) rest max_per_query with
          | inl e => inl e
          | inr rs => inr (query_results o ++ rs)%list
          end
      end
  end.

Definition result_to_py (r : SearchResult) : PyValue :=
  PyDict [("doc_id", match doc_id r with Some d => PyStr d | None => PyNone end);
          ("title", PyStr (title r));
          ("url", PyStr (url r));
          ("snippet", PyStr (snippet r))].

(** Modelled from the spec: [_execute_queries] as the handler calls it,
    answering the ordered list of results. *)
Definition execute_queries_spec (portal : Portal) (qs : list string)
  (max_per_query : Z) : M PyValue :=
  match execute_from portal 0 qs max_per_query with
  | inl e => raise e
  | inr rs => ret (PyList (map result_to_py rs))
  end.

(* ================================================================== *)
(** ** Tool-dispatch loop (spec 3 and 4.6) *)

(** Modelled from the spec: the [ToolCall] of section 3. *)
Record ToolCall := {
  call_id : string;
  name : string;
  arguments : PyValue
}.

Record LLMResponse := {
  resp_content : string;
  resp_tool_calls : list ToolCall
}.

(** The LLM answers the conversation of a round; nothing is assumed of it. *)
Definition LLM := nat -> list ChatMessage -> LLMResponse.

(** A tool execution answers text: its result, or its typed error
    serialised. *)
Definition ToolExecutor := ToolCall -> string.

(** Modelled from the spec: the states of section 4.6, with the rounds
    done so far and the best answer so far. *)
Inductive LoopState : Type :=
| planning (conv : list ChatMessage) (rounds : nat) (partial : string)
| executing_tools (conv : list ChatMessage) (calls : list ToolCall)
                  (rounds : nat) (partial : string)
| answered (reply : string) (rounds : nat)
| exhausted (partial_reply : string) (rounds : nat) (cap_hit : bool).

Definition tool_message (exec : ToolExecutor) (c : ToolCall) : ChatMessage :=
  {| role := tool; content := exec c; tool_call_id := Some (call_id c) |}.

Definition assistant_message (text : string) : ChatMessage :=
  {| role := assistant; content := text; tool_call_id := None |}.

Section Dispatch.
Variable round_cap : nat.
Variable llm : LLM.
Variable exec : ToolExecutor.

(** Modelled from the spec: the dispatch loop is not in the module (the
    chat route is absent).  Section 4.6: [planning] submits the
    conversation, one round; a response without tool calls is the
    answer; otherwise every call is executed in order, its result
    appended as a tool message keyed by its call id, and the
    conversation is resubmitted; at the round cap the loop ends
    [exhausted] with the partial answer and the flag. *)
Definition step (s : LoopState) : option LoopState :=
  match s with
  | planning conv rounds partial =>
      if (round_cap <=? rounds)%nat then Some (exhausted partial rounds true)
      else
        let resp := llm rounds conv in
        match resp_tool_calls resp with
        | [] => Some (answered (resp_content resp) (S rounds))
        | calls =>
            Some (executing_tools
                    (conv ++ [assistant_message (resp_content resp)])%list
                    calls (S rounds) (resp_content resp))
        end
  | executing_tools conv calls rounds partial =>
      Some (planning (conv ++ map (tool_message exec) calls)%list rounds partial)
  | answered _ _ => None
  | exhausted _ _ _ => None
  end.

(** At most [fuel] transitions from [s], stopping at a terminal state. *)
Fixpoint run (fuel : nat) (s : LoopState) : LoopState :=
  match fuel with
  | O => s
  | S fuel' => match step s with
               | Some s' => run fuel' s'
               | None => s
               end
  end.

(** Modelled from the spec: [respond(conversation)] of section 4.6,
    from [planning] with the caller's conversation.  Two transitions a
    round and one to end: the step budget below is never the reason
    the loop stops (see [run_reaches_terminal]). *)
Definition respond (conv : list ChatMessage) : LoopState :=
  run (2 * round_cap + 1) (planning conv 0 "").
End Dispatch.

Definition is_terminal (s : LoopState) : bool :=
  match s with
  | answered _ _ | exhausted _ _ _ => true
  | _ => false
  end.

Definition rounds_of (s : LoopState) : nat :=
  match s with
  | planning _ r _ | executing_tools _ _ r _ | answered _ r | exhausted _ r _ => r
  end.

(** Transitions left before the loop must have ended. *)
Definition steps_left (round_cap : nat) (s : LoopState) : nat :=
  match s with
  | planning _ r _ => 2 * (round_cap - r) + 1
  | executing_tools _ _ r _ => 2 * (round_cap - r) + 2
  | answered _ _ | exhausted _ _ _ => 0
  end.

(* ================================================================== *)
(** ** Fixtures *)

Definition env_default : OsEnviron :=
  {| getenv := fun _ => None; home := "/home/mos" |}.

Definition world_ok : World :=
  {| makedirs_outcome := fun _ => MkdirOk;
     playwright_start := Some 1;
     close_raises := fun _ => false |}.

(** Every profile directory refuses creation. *)
Definition world_denied : World :=
  {| makedirs_outcome := fun _ => MkdirPermissionDenied;
     playwright_start := Some 1;
     close_raises := fun _ => false |}.

(** The engine does not start. *)
Definition world_no_engine : World :=
  {| makedirs_outcome := fun _ => MkdirOk;
     playwright_start := None;
     close_raises := fun _ => false |}.

(** The globals once the module is imported. *)
Definition globals_fresh : Globals := snd (module_import env_default world_ok).

(** Globals holding a live context [c] created with mode [h]. *)
Definition with_live_context (c : BrowserContext) (h : bool) (g : Globals) : Globals :=
  {| _play := Some 1; _ctx := Some c; _ctx_headless := Some h;
     _profile_dir_in_use := _profile_dir_in_use g;
     last_search_data := last_search_data g; stdout := stdout g;
     makedirs_calls := makedirs_calls g; closed_contexts := closed_contexts g |}.

(** The [os.makedirs] calls one call of [_ensure_context] adds. *)
Definition new_makedirs_calls (e : OsEnviron) (w : World) (headless : bool)
  (g : Globals) : list string :=
  skipn (List.length (makedirs_calls g))
        (makedirs_calls (snd (_ensure_context e w headless g))).

(** The first directory a call of [_ensure_context] attempts is the
    primary configured one. *)
Definition primary_tried_first (e : OsEnviron) (w : World) (headless : bool)
  (g : Globals) : Prop :=
  hd_error (new_makedirs_calls e w headless g) = Some (PROFILE_DIR e).

(** The home fallback refuses creation, the primary path accepts it. *)
Definition world_fallback_denied : World :=
  {| makedirs_outcome :=
       fun p => if String.eqb p "/home/mos/.mos_profile"
                then MkdirPermissionDenied else MkdirOk;
     playwright_start := Some 1;
     close_raises := fun _ => false |}.

(** What the candidate loop leaves untouched, whatever it meets. *)
Definition same_session (g g' : Globals) : Prop :=
  _play g' = _play g /\ _ctx g' = _ctx g /\ _ctx_headless g' = _ctx_headless g /\
  _profile_dir_in_use g' = _profile_dir_in_use g /\
  last_search_data g' = last_search_data g.

(* ------------------------------------------------------------------ *)
(** *** The bounds as the interface states them (spec 6) *)

Definition spec_default (raw : option Z) : Z :=
  match raw with Some v => v | None => 5 end.

Definition spec_int_in (lo hi : Z) (raw : option Z) : bool :=
  match raw with
  | None => true
  | Some v => ((lo <=? v) && (v <=? hi))%Z
  end.

(** [search]: 1..25 query strings, [max_per_query] in 1..20. *)
Definition spec_search_in_bounds (raw : RawSearchRequest) : bool :=
  match raw_queries raw with
  | Some qs => (1 <=? List.length qs)%nat && (List.length qs <=? 25)%nat
  | None => false
  end && spec_int_in 1 20 (raw_max_per_query raw).

(** [search_from_log]: non-empty [log_text], [max_queries] in 1..25,
    [max_per_query] in 1..20. *)
Definition spec_log_in_bounds (raw : RawLogSearchRequest) : bool :=
  match raw_log_text raw with
  | Some t => negb (String.eqb t "")
  | None => false
  end && spec_int_in 1 25 (raw_max_queries raw)
      && spec_int_in 1 20 (raw_log_max_per_query raw).

(** The request a body within bounds stands for: its own values, the
    default 5 where a number is absent. *)
Definition search_request_of (raw : RawSearchRequest) : SearchRequest :=
  {| queries := match raw_queries raw with Some qs => qs | None => [] end;
     max_per_query := spec_default (raw_max_per_query raw) |}.

Definition log_request_of (raw : RawLogSearchRequest) : LogSearchRequest :=
  {| log_text := match raw_log_text raw with Some t => t | None => "" end;
     max_queries := spec_default (raw_max_queries raw);
     log_max_per_query := spec_default (raw_log_max_per_query raw) |}.

(** Whether the [/search] body model takes a list of queries. *)
Definition http_accepts_queries (qs : list string) : bool :=
  match list_field "queries" SearchRequest_min_items SearchRequest_max_items
                   (Some qs) with
  | inr _ => true
  | inl _ => false
  end.

(* ------------------------------------------------------------------ *)
(** *** Batches *)

(** The outcome of each query of a batch, in submission order. *)
Fixpoint batch_outcomes (portal : Portal) (i : nat) (qs : list string)
  (max_per_query : Z) : list QueryOutcome :=
  match qs with
  | [] => []
  | q :: rest =>
      run_query (portal i q) max_per_query q
      :: batch_outcomes portal (S i) rest max_per_query
  end.

Definition is_systemic (o : QueryOutcome) : bool :=
  match o with QuerySystemic _ => true | _ => false end.

(** The number of results of one query. *)
Definition result_count (page : PageBehaviour) (max_per_query : Z) (query : string) : Z :=
  Z.of_nat (List.length (query_results (run_query page max_per_query query))).

(* ------------------------------------------------------------------ *)
(** *** Portal fixtures *)

Definition node (d t l : string) : ResultNode :=
  {| node_doc_id := Some d; node_title := Some t; node_link := Some l;
     node_snippet := "" |}.

Definition untitled_node (l : string) : ResultNode :=
  {| node_doc_id := None; node_title := None; node_link := Some l;
     node_snippet := "" |}.

(** Only the aria selector of the search box resolves. *)
Definition aria_only : PageOracle :=
  fun sel => if String.eqb sel GLOBAL_SEARCH_ARIA then Some 1 else None.

Definition page_with (nodes : list ResultNode) : PageBehaviour :=
  {| session_failure := None; page_oracle := aria_only; results_dom := Some nodes |}.

(** No selector resolves: the search box is not found. *)
Definition page_without_search_box : PageBehaviour :=
  {| session_failure := None; page_oracle := fun _ => None; results_dom := None |}.

Definition three_nodes : list ResultNode :=
  [node "1" "first" "/doc/1"; untitled_node "/doc/x"; node "1" "again" "/doc/1";
   node "2" "second" "/doc/2"; node "3" "third" "/doc/3"].

(** The second query of a batch meets a page without search box. *)
Definition portal_second_fails : Portal :=
  fun i _ => match i with
             | 1 => page_without_search_box
             | _ => page_with three_nodes
             end.

(* ------------------------------------------------------------------ *)
(** *** LLM fixtures *)

Definition call_search : ToolCall :=
  {| call_id := "call_1"; name := "search_mos";
     arguments := PyDict [("queries", PyList [PyStr "ORA-00600"])] |}.

Definition llm_answers : LLM :=
  fun _ _ => {| resp_content := "done"; resp_tool_calls := [] |}.

Definition llm_always_calls : LLM :=
  fun _ _ => {| resp_content := "searching"; resp_tool_calls := [call_search] |}.

Definition exec_fixture : ToolExecutor := fun _ => "[]".

Definition user_turn : list ChatMessage :=
  [{| role := user; content := "ORA-00600?"; tool_call_id := None |}].

(* ================================================================== *)
(** ** Further parts of the module *)

(* ------------------------------------------------------------------ *)
(** *** [HEADLESS_DEFAULT] (line 28)

    Strings are byte strings; [str.lower()] is embedded on the ASCII
    letters, which decides membership in a set of ASCII words the same
    way. *)

Definition ascii_lower (c : ascii) : ascii :=
  let n := nat_of_ascii c in
  if (65 <=? n)%nat && (n <=? 90)%nat then ascii_of_nat (n + 32) else c.

Definition ascii_upper (c : ascii) : ascii :=
  let n := nat_of_ascii c in
  if (97 <=? n)%nat && (n <=? 122)%nat then ascii_of_nat (n - 32) else c.

Fixpoint str_lower (s : string) : string :=
  match s with
  | EmptyString => EmptyString
  | String c rest => String (ascii_lower c) (str_lower rest)
  end.

Fixpoint str_upper (s : string) : string :=
  match s with
  | EmptyString => EmptyString
  | String c rest => String (ascii_upper c) (str_upper rest)
  end.

(** [os.getenv("MOS_HEADLESS", "1").lower() in {"1", "true", "yes"}] *)
Definition HEADLESS_DEFAULT (e : OsEnviron) : bool :=
  existsb (String.eqb (str_lower (getenv_default e "MOS_HEADLESS" "1")))
          ["1"; "true"; "yes"].

(** The environment with one variable set. *)
Definition setenv (name value : string) (e : OsEnviron) : OsEnviron :=
  {| getenv := fun n => if String.eqb n name then Some value else getenv e n;
     home := home e |}.

(* ------------------------------------------------------------------ *)
(** *** [ChatMessage] and [ChatRequest] (lines 186-193) *)









(* ------------------------------------------------------------------ *)
(** *** Vocabulary of the further properties *)

Definition accepted {A} (r : Exn + A) : bool :=
  match r with inr _ => true | inl _ => false end.

(** JSON Schema's reading of [minimum]/[maximum]: an absent keyword does
    not bound. *)
Definition within_int (lo hi : option Z) (v : Z) : bool :=
  match lo with Some l => (l <=? v)%Z | None => true end
  && match hi with Some h => (v <=? h)%Z | None => true end.

(** The body that spells a validated request out. *)
Definition raw_of_SearchRequest (req : SearchRequest) : RawSearchRequest :=
  {| raw_queries := Some (queries req); raw_max_per_query := Some (max_per_query req) |}.

Definition raw_of_LogSearchRequest (req : LogSearchRequest) : RawLogSearchRequest :=
  {| raw_log_text := Some (log_text req); raw_max_queries := Some (max_queries req);
     raw_log_max_per_query := Some (log_max_per_query req) |}.

(** Stable de-duplication: the first occurrence of each element, in order. *)
Fixpoint first_occurrences (l : list string) : list string :=
  match l with
  | [] => []
  | x :: rest => x :: filter (fun y => negb (String.eqb y x)) (first_occurrences rest)
  end.

(** The directories [_ensure_context] draws its candidates from. *)
Definition profile_candidates (e : OsEnviron) (g : Globals) : list string :=
  collect_candidates [_profile_dir_in_use g; PROFILE_DIR e; FALLBACK_PROFILE_DIR e] [].

(** A run of calls of [_ensure_context], each in the world of its time;
    a call that raises leaves the globals as they were when it raised. *)
Fixpoint ensure_context_calls (e : OsEnviron) (calls : list (World * bool))
  (g : Globals) : Globals :=
  match calls with
  | [] => g
  | (w, headless) :: rest =>
      ensure_context_calls e rest (snd (_ensure_context e w headless g))
  end.

(** Closing a context fails. *)
Definition world_close_fails : World :=
  {| makedirs_outcome := fun _ => MkdirOk;
     playwright_start := Some 1;
     close_raises := fun _ => true |}.

(** Nothing works: closing, the engine, the directories. *)
Definition world_broken : World :=
  {| makedirs_outcome := fun _ => MkdirOtherError;
     playwright_start := None;
     close_raises := fun _ => true |}.

(** An executor that answers its number of queries and keeps the globals. *)
Definition exec_count : list string -> Z -> M PyValue :=
  fun qs _ => ret (PyInt (Z.of_nat (List.length qs))).

(** An executor that fails. *)
Definition exec_fails : list string -> Z -> M PyValue :=
  fun _ _ => raise PlaywrightError.

(* ================================================================== *)
(** * Properties *)

(** ** Session manager *)

Lemma fresh_globals_value :
  globals_fresh =
  {| _play := None; _ctx := None; _ctx_headless := None;
     _profile_dir_in_use := "/home/mos/.mos_profile";
     last_search_data := PyNone; stdout := [];
     makedirs_calls := ["/home/mos/.mos_profile"]; closed_contexts := [] |}.
Proof. reflexivity. Qed.

(** The guard of lines 208-209: a live context of the requested mode is
    returned as it is and nothing else happens. *)
Lemma ensure_context_reuse (e : OsEnviron) (w : World) (headless : bool) (g : Globals) :
  ctx_matches g headless = true ->
  _ensure_context e w headless g = (Returned (_ctx g), g).
Proof.
  intros Hm. unfold _ensure_context, bind, get. now rewrite Hm.
Qed.

Lemma same_session_refl g : same_session g g.
Proof. repeat split. Qed.

Lemma same_session_trans g1 g2 g3 :
  same_session g1 g2 -> same_session g2 g3 -> same_session g1 g3.
Proof.
  unfold same_session. intros (a1 & a2 & a3 & a4 & a5) (b1 & b2 & b3 & b4 & b5).
  repeat split; congruence.
Qed.

(** Unfolds the monad's operations and the primitives built on them. *)
Ltac run_monad :=
  cbv [bind ret raise get modify print try_except_PermissionError
       os_makedirs ctx_close async_playwright_start];
  cbn [fst snd].

(** Instantiates an induction hypothesis on the candidate loop at the
    arguments of the recursive call in the goal. *)
Ltac loop_ih IH H :=
  match goal with
  | |- context [try_candidates _ _ ?a ?g0] => pose proof (IH a g0) as H
  end.

Lemma try_candidates_frame (w : World) (cands : list string) :
  forall attempted g,
    same_session g (snd (try_candidates w cands attempted g)) /\
    (forall e, fst (try_candidates w cands attempted g) = Raised e ->
               exists p, e = OSError p /\ makedirs_outcome w p = MkdirOtherError).
Proof.
  induction cands as [|c rest IH]; intros attempted g.
  - split; [apply same_session_refl | discriminate].
  - cbn [try_candidates].
    run_monad. destruct (makedirs_outcome w c) eqn:Hc; run_monad.
    + loop_ih IH Hloop; destruct Hloop as [Hs Hr].
      split; [|exact Hr].
      eapply same_session_trans; [|exact Hs]. repeat split.
    + loop_ih IH Hloop; destruct Hloop as [Hs Hr].
      split; [|exact Hr].
      eapply same_session_trans; [|exact Hs]. repeat split.
    + split; [repeat split|].
      intros e He. injection He as <-. now exists c.
Qed.

(** The candidate loop when no directory fails for another reason than
    permissions: every candidate is attempted, in order, and the loop
    ends normally. *)
Lemma try_candidates_all (w : World) (cands : list string) :
  (forall c, In c cands -> makedirs_outcome w c <> MkdirOtherError) ->
  forall attempted g,
    fst (try_candidates w cands attempted g) = Returned (attempted ++ cands)%list /\
    makedirs_calls (snd (try_candidates w cands attempted g))
    = (makedirs_calls g ++ cands)%list.
Proof.
  induction cands as [|c rest IH]; intros Hok attempted g.
  - cbn. now rewrite !app_nil_r.
  - cbn [try_candidates].
    run_monad.
    assert (Hrest : forall c', In c' rest -> makedirs_outcome w c' <> MkdirOtherError)
      by (intros c' Hin; apply Hok; now right).
    specialize (IH Hrest).
    destruct (makedirs_outcome w c) eqn:Hc; run_monad.
    + loop_ih IH Hloop. destruct Hloop as [Hr Hm].
      rewrite Hr, Hm. cbn. now rewrite <- !app_assoc.
    + loop_ih IH Hloop. destruct Hloop as [Hr Hm].
      rewrite Hr, Hm. cbn. now rewrite <- !app_assoc.
    + exfalso. apply (Hok c); [now left | exact Hc].
Qed.

Lemma skipn_length_app {A} (l1 l2 : list A) :
  skipn (List.length l1) (l1 ++ l2)%list = l2.
Proof. induction l1 as [|x l1 IH]; [reflexivity | exact IH]. Qed.

(** Closes a goal on the tail of [_ensure_context] once the goal has
    reached the candidate loop. *)
Ltac after_loop w Hdirs :=
  cbn [_profile_dir_in_use add_stdout set_ctx add_closed set_play];
  match goal with
  | |- context [try_candidates w ?cs ?a ?g0] =>
      let Hr := fresh "Hr" in
      let Hc := fresh "Hc" in
      let Hx := fresh "Hx" in
      destruct (try_candidates_all w cs Hdirs a g0) as [Hr Hc];
      destruct (try_candidates_frame w cs a g0) as [(_ & Hx & _) _];
      destruct (try_candidates w cs a g0);
      cbn [fst snd] in Hr, Hc, Hx; rewrite Hr; cbn [fst snd];
      repeat split; [exact Hx || (rewrite Hx; assumption) | exact Hc]
  end.

(** Past the guard, [_ensure_context] on a cooperating world: the old
    context is closed, the engine started once, every candidate directory
    attempted in order, and the call returns [None] with no context. *)
Lemma ensure_context_past_guard (e : OsEnviron) (w : World) (headless : bool)
  (g : Globals) :
  ctx_matches g headless = false ->
  (forall c, _ctx g = Some c -> close_raises w c = false) ->
  (_play g = None -> playwright_start w <> None) ->
  (forall p, In p (collect_candidates
                     [_profile_dir_in_use g; PROFILE_DIR e; FALLBACK_PROFILE_DIR e] [])
             -> makedirs_outcome w p <> MkdirOtherError) ->
  let r := _ensure_context e w headless g in
  fst r = Returned None /\
  _ctx (snd r) = None /\
  makedirs_calls (snd r)
  = (makedirs_calls g
     ++ collect_candidates
          [_profile_dir_in_use g; PROFILE_DIR e; FALLBACK_PROFILE_DIR e] [])%list.
Proof.
  intros Hm Hclose Hstart Hdirs r. subst r.
  unfold _ensure_context. run_monad. rewrite Hm. run_monad. rewrite Hm.
  destruct (_ctx g) as [c|] eqn:Hctx.
  - run_monad. rewrite (Hclose c eq_refl). run_monad. cbn [_play set_ctx add_closed].
    destruct (_play g) as [p|] eqn:Hplay.
    + run_monad. after_loop w Hdirs.
    + run_monad.
      destruct (playwright_start w) as [p|]; [|now destruct (Hstart eq_refl)].
      run_monad. after_loop w Hdirs.
  - run_monad. destruct (_play g) as [p|] eqn:Hplay.
    + run_monad. after_loop w Hdirs.
    + run_monad.
      destruct (playwright_start w) as [p|]; [|now destruct (Hstart eq_refl)].
      run_monad. after_loop w Hdirs.
Qed.


(** A call that gets past the guard and returns has no context to give:
    it answers [None] and leaves [_ctx] empty. *)
Lemma ensure_context_returns_none (e : OsEnviron) (w : World) (headless : bool)
  (g : Globals) (r : option BrowserContext) :
  ctx_matches g headless = false ->
  fst (_ensure_context e w headless g) = Returned r ->
  r = None /\ _ctx (snd (_ensure_context e w headless g)) = None.
Proof.
  intros Hm. unfold _ensure_context. run_monad. rewrite Hm. run_monad. rewrite Hm.
  assert (Hloop : forall cs a g0, _ctx g0 = None ->
             let t := (let (o, g') := try_candidates w cs a g0 in
                       match o with
                       | Returned _ => (Returned (@None BrowserContext), g')
                       | Raised e0 => (Raised e0, g')
                       end) in
             fst t = Returned r -> r = None /\ _ctx (snd t) = None).
  { intros cs a g0 Hg0.
    destruct (try_candidates_frame w cs a g0) as [(_ & Hx & _) _].
    destruct (try_candidates w cs a g0) as [[r0|e0] g1]; cbn [fst snd] in *;
      [|discriminate].
    intros [= <-]. split; [reflexivity | congruence]. }
  destruct (_ctx g) as [c|] eqn:Hctx; run_monad.
  - destruct (close_raises w c); run_monad; [discriminate|].
    cbn [_play set_ctx add_closed].
    destruct (_play g); run_monad; [now apply Hloop|].
    destruct (playwright_start w); run_monad; [now apply Hloop | discriminate].
  - destruct (_play g); run_monad; [now apply Hloop|].
    destruct (playwright_start w); run_monad; [now apply Hloop | discriminate].
Qed.

(** The unguarded [os.makedirs] of line 25: a refusal there fails the
    import. *)
Example module_import_refused :
  fst (module_import env_default world_denied)
  = Raised (PermissionError "/home/mos/.mos_profile").
Proof. reflexivity. Qed.

Lemma append_nonempty (a b : string) : b <> "" -> a ++ b <> "".
Proof. destruct a; [now cbn | discriminate]. Qed.

Lemma FALLBACK_PROFILE_DIR_nonempty (e : OsEnviron) : FALLBACK_PROFILE_DIR e <> "".
Proof.
  unfold FALLBACK_PROFILE_DIR, path_join.
  destruct (String.eqb (home e) ""); [discriminate|].
  destruct (ends_with_slash (home e)); apply append_nonempty; discriminate.
Qed.

(** The candidates of the first call after import, for every
    configuration with a primary path of its own: the home fallback, then
    the primary path. *)
Lemma candidates_at_import (e : OsEnviron) :
  PROFILE_DIR e <> "" -> PROFILE_DIR e <> FALLBACK_PROFILE_DIR e ->
  collect_candidates
    [_profile_dir_in_use (globals_at_import e); PROFILE_DIR e; FALLBACK_PROFILE_DIR e] []
  = [FALLBACK_PROFILE_DIR e; PROFILE_DIR e].
Proof.
  intros Hne Hdiff. cbn [globals_at_import _profile_dir_in_use collect_candidates existsb].
  destruct (String.eqb_spec (FALLBACK_PROFILE_DIR e) "") as [H|_];
    [now destruct (FALLBACK_PROFILE_DIR_nonempty e)|].
  cbn [negb andb app existsb orb].
  destruct (String.eqb_spec (PROFILE_DIR e) "") as [H|_]; [contradiction|].
  destruct (String.eqb_spec (PROFILE_DIR e) (FALLBACK_PROFILE_DIR e)) as [H|_];
    [contradiction|].
  cbn [negb andb app existsb orb].
  now rewrite String.eqb_refl.
Qed.

(** C1 (the code at the failing inputs).  The claim: acquisition returns
    the live context when the mode matches and otherwise tears down and
    returns a freshly created session.  The code: in a fresh process
    [_ensure_context(True)] returns [None] and leaves [_ctx] empty, so a
    second [_ensure_context(True)] goes through the launch path again
    (two launch lines printed) and returns [None] too; with a live
    headless context 7, [_ensure_context(False)] closes it, creates no
    other and returns [None]. *)
Theorem C1_ensure_context_creates_no_session :
  let first := _ensure_context env_default world_ok true globals_fresh in
  let second := _ensure_context env_default world_ok true (snd first) in
  let switch := _ensure_context env_default world_ok false
                  (with_live_context 7 true globals_fresh) in
  (fst first = Returned None /\ _ctx (snd first) = None) /\
  (fst second = Returned None /\
   stdout (snd second)
   = ["[mos_agent] launching Playwright context (headless=True)";
      "[mos_agent] launching Playwright context (headless=True)"]) /\
  (fst switch = Returned None /\ _ctx (snd switch) = None /\
   closed_contexts (snd switch) = [7]).
Proof. vm_compute. repeat split. Qed.

(** C2 (the code at the failing input).  The claim: when every profile
    directory candidate is unwritable, acquisition fails with an error
    raised to the caller.  The code: with [os.makedirs] refusing every
    candidate, each refusal is caught and printed and the call returns
    [None] without raising; an engine that does not start does raise, the
    engine's own error. *)
Theorem C2_all_candidates_denied_raises_nothing :
  let denied := _ensure_context env_default world_denied true globals_fresh in
  fst denied = Returned None /\
  stdout (snd denied)
  = ["[mos_agent] launching Playwright context (headless=True)";
     "[mos_agent] cannot create profile dir /home/mos/.mos_profile: permission denied";
     "[mos_agent] cannot create profile dir /opt/mos_profile: permission denied"] /\
  fst (_ensure_context env_default world_no_engine true globals_fresh)
  = Raised PlaywrightError.
Proof. vm_compute. repeat split. Qed.

(** C3, as the claim states it, fails: in a fresh process with the default
    configuration the first directory attempted is the fallback under the
    home, not the primary configured path. *)
Lemma C3_primary_not_tried_first :
  new_makedirs_calls env_default world_ok true globals_fresh
  = ["/home/mos/.mos_profile"; "/opt/mos_profile"] /\
  ~ primary_tried_first env_default world_ok true globals_fresh.
Proof. split; [reflexivity | vm_compute; discriminate]. Qed.

(** C3 (amended).  Past the guard, on a world where the context closes,
    the engine starts and no candidate fails for another reason than
    permissions, [_ensure_context] attempts the directories in the order:
    the one in use, the primary configured path, the fallback under the
    home, without empty paths and repeats; a permission failure on a
    candidate is caught, the next one is attempted, and the call does not
    raise. *)
Theorem C3_candidates_tried_in_use_first (e : OsEnviron) (w : World)
  (headless : bool) (g : Globals) :
  ctx_matches g headless = false ->
  (forall c, _ctx g = Some c -> close_raises w c = false) ->
  (_play g = None -> playwright_start w <> None) ->
  (forall p, In p (collect_candidates
                     [_profile_dir_in_use g; PROFILE_DIR e; FALLBACK_PROFILE_DIR e] [])
             -> makedirs_outcome w p <> MkdirOtherError) ->
  new_makedirs_calls e w headless g
  = collect_candidates
      [_profile_dir_in_use g; PROFILE_DIR e; FALLBACK_PROFILE_DIR e] [] /\
  (forall x, fst (_ensure_context e w headless g) <> Raised x).
Proof.
  intros Hm Hclose Hstart Hdirs.
  destruct (ensure_context_past_guard e w headless g Hm Hclose Hstart Hdirs)
    as (Hr & _ & Hcalls).
  split.
  - unfold new_makedirs_calls. rewrite Hcalls. apply skipn_length_app.
  - intros x Hx. rewrite Hr in Hx. discriminate.
Qed.

(** The amended C3 on a world where the fallback refuses creation: the
    fallback is attempted first, the refusal is skipped, the primary path
    is attempted next. *)
Lemma C3_candidates_tried_in_use_first_witness :
  makedirs_outcome world_fallback_denied "/home/mos/.mos_profile"
  = MkdirPermissionDenied /\
  new_makedirs_calls env_default world_fallback_denied true globals_fresh
  = ["/home/mos/.mos_profile"; "/opt/mos_profile"] /\
  (forall x, fst (_ensure_context env_default world_fallback_denied true globals_fresh)
             <> Raised x).
Proof.
  split; [reflexivity|].
  apply (C3_candidates_tried_in_use_first env_default world_fallback_denied
           true globals_fresh).
  - reflexivity.
  - intros c Hc. reflexivity.
  - intros _. discriminate.
  - intros p _. simpl. destruct (String.eqb p "/home/mos/.mos_profile"); discriminate.
Defined.

(* ================================================================== *)
(** ** The [/search] handler and the request bounds *)

(** C6.  When a call of [search] returns, [last_search_data] holds the
    response it returned, whatever [_execute_queries] is and did to the
    globals. *)
Theorem C6_last_search_data_is_response
  (_execute_queries : list string -> Z -> M PyValue)
  (req : SearchRequest) (g g' : Globals) (result : PyValue) :
  search _execute_queries req g = (Returned result, g') ->
  last_search_data g' = result.
Proof.
  unfold search. run_monad.
  destruct (_execute_queries (queries req) (max_per_query req) g) as [[r|e] g1].
  - intros [= <- <-]. reflexivity.
  - discriminate.
Qed.

(** C6 on a batch of one query against the fixture portal. *)
Lemma C6_last_search_data_is_response_witness :
  let r := search (execute_queries_spec portal_second_fails)
                  {| queries := ["ORA-00600"]; max_per_query := 2 |} globals_fresh in
  fst r = Returned (PyList (map result_to_py
                              [{| doc_id := Some "1"; title := "first";
                                  url := "/doc/1"; snippet := "" |};
                               {| doc_id := Some "2"; title := "second";
                                  url := "/doc/2"; snippet := "" |}])) /\
  last_search_data (snd r)
  = PyList (map result_to_py
              [{| doc_id := Some "1"; title := "first";
                  url := "/doc/1"; snippet := "" |};
               {| doc_id := Some "2"; title := "second";
                  url := "/doc/2"; snippet := "" |}]).
Proof.
  split; [reflexivity|].
  apply (C6_last_search_data_is_response
           (execute_queries_spec portal_second_fails)
           {| queries := ["ORA-00600"]; max_per_query := 2 |} globals_fresh).
  reflexivity.
Defined.

(** A failing [_execute_queries] leaves [last_search_data] as it left it:
    the assignment of line 238 is not reached. *)
Lemma search_raises_keeps_last (_execute_queries : list string -> Z -> M PyValue)
  (req : SearchRequest) (g : Globals) (x : Exn) :
  fst (_execute_queries (queries req) (max_per_query req) g) = Raised x ->
  search _execute_queries req g
  = (Raised x, snd (_execute_queries (queries req) (max_per_query req) g)).
Proof.
  unfold search. run_monad.
  destruct (_execute_queries (queries req) (max_per_query req) g) as [[r|e] g1];
    cbn [fst snd]; [discriminate | now intros [= ->]].
Qed.

Lemma int_field_spec (fname : string) (lo hi : Z) (raw : option Z) :
  int_field fname 5 lo hi raw
  = if spec_int_in lo hi raw then inr (spec_default raw)
    else inl (ValidationError fname).
Proof.
  unfold int_field, spec_int_in, spec_default.
  destruct raw as [v|]; [|reflexivity].
  now destruct ((lo <=? v) && (v <=? hi))%Z.
Qed.

Lemma nonempty_length (s : string) :
  (1 <=? String.length s)%nat = negb (String.eqb s "").
Proof. now destruct s. Qed.

(** The pydantic model of [/search] accepts exactly the bodies within the
    stated bounds, and keeps their values. *)
Lemma validate_SearchRequest_spec (raw : RawSearchRequest) :
  validate_SearchRequest raw
  = if spec_search_in_bounds raw then inr (search_request_of raw)
    else inl (ValidationError
                (if match raw_queries raw with
                    | Some qs => (1 <=? List.length qs)%nat && (List.length qs <=? 25)%nat
                    | None => false
                    end then "max_per_query" else "queries")).
Proof.
  unfold validate_SearchRequest, spec_search_in_bounds, search_request_of, list_field,
    SearchRequest_min_items, SearchRequest_max_items, RESULTS_PER_QUERY_LIMIT.
  rewrite int_field_spec.
  destruct (raw_queries raw) as [qs|]; [|reflexivity].
  destruct ((1 <=? List.length qs)%nat && (List.length qs <=? 25)%nat); [|reflexivity].
  now destruct (spec_int_in 1 20 (raw_max_per_query raw)).
Qed.

Lemma validate_LogSearchRequest_spec (raw : RawLogSearchRequest) :
  if spec_log_in_bounds raw
  then validate_LogSearchRequest raw = inr (log_request_of raw)
  else exists f, validate_LogSearchRequest raw = inl (ValidationError f).
Proof.
  unfold validate_LogSearchRequest, spec_log_in_bounds, log_request_of, str_field,
    RESULTS_PER_QUERY_LIMIT.
  rewrite !int_field_spec.
  destruct (raw_log_text raw) as [t|]; [|now eexists].
  rewrite nonempty_length.
  destruct (String.eqb t ""); [now eexists|].
  destruct (spec_int_in 1 25 (raw_max_queries raw)); [|now eexists].
  destruct (spec_int_in 1 20 (raw_log_max_per_query raw)); [reflexivity | now eexists].
Qed.

(** C7.  Both routes validate the body against the stated bounds before
    the core runs: a body within bounds reaches the handler with exactly
    its own values (5 where a number is absent); any other body is
    answered with a validation error that no handler can influence, the
    globals untouched. *)
Theorem C7_bounds_checked_before_core :
  (forall raw : RawSearchRequest,
      if spec_search_in_bounds raw
      then forall exec, post_search exec raw = search exec (search_request_of raw)
      else exists f, forall exec g,
             post_search exec raw g = (Raised (ValidationError f), g)) /\
  (forall raw : RawLogSearchRequest,
      if spec_log_in_bounds raw
      then forall handler, post_search_log handler raw = handler (log_request_of raw)
      else exists f, forall (handler : LogSearchRequest -> M PyValue) g,
             post_search_log handler raw g = (Raised (ValidationError f), g)).
Proof.
  split; intros raw.
  - unfold post_search, fastapi_route. rewrite validate_SearchRequest_spec.
    destruct (spec_search_in_bounds raw); [reflexivity|].
    eexists. intros exec g. reflexivity.
  - unfold post_search_log, fastapi_route.
    pose proof (validate_LogSearchRequest_spec raw) as H.
    destruct (spec_log_in_bounds raw).
    + intros handler. now rewrite H.
    + destruct H as [f Hf]. exists f. intros handler g. now rewrite Hf.
Qed.

(** Bodies out of bounds are refused, not clamped: 21 results a query,
    26 queries, no query, an empty log. *)
Example out_of_bounds_bodies_refused :
  spec_search_in_bounds {| raw_queries := Some ["q"]; raw_max_per_query := Some 21%Z |}
  = false /\
  spec_search_in_bounds {| raw_queries := Some (repeat "q" 26);
                           raw_max_per_query := None |} = false /\
  spec_search_in_bounds {| raw_queries := Some []; raw_max_per_query := Some 5%Z |}
  = false /\
  spec_log_in_bounds {| raw_log_text := Some ""; raw_max_queries := None;
                        raw_log_max_per_query := None |} = false /\
  validate_SearchRequest {| raw_queries := Some ["q"]; raw_max_per_query := Some 21%Z |}
  = inl (ValidationError "max_per_query").
Proof. repeat split. Qed.

(* ================================================================== *)
(** ** The tool schema against the HTTP boundary *)

Lemma search_mos_is_first_tool :
  find_tool "search_mos" = hd_error LLM_TOOLS.
Proof. reflexivity. Qed.

(** C10.  In [LLM_TOOLS] the [search_mos] tool takes between 1 and 5
    queries ([minItems] 1, [maxItems] 5) and [max_per_query] at most
    [RESULTS_PER_QUERY_LIMIT] = 20; the [/search] body takes 1 to 25
    queries.  The tool's bound is strictly tighter: every list the tool
    takes the route takes, and a list of six the route takes and the tool
    does not. *)
Theorem C10_tool_schema_tighter_than_http :
  tool_param_int "search_mos" "queries" "minItems" = Some 1%Z /\
  tool_param_int "search_mos" "queries" "maxItems" = Some 5%Z /\
  tool_param_int "search_mos" "max_per_query" "maximum" = Some RESULTS_PER_QUERY_LIMIT /\
  RESULTS_PER_QUERY_LIMIT = 20%Z /\
  SearchRequest_min_items = 1%nat /\ SearchRequest_max_items = 25%nat /\
  (forall qs : list string,
      search_mos_accepts_queries qs
      = (1 <=? List.length qs)%nat && (List.length qs <=? 5)%nat /\
      http_accepts_queries qs
      = (1 <=? List.length qs)%nat && (List.length qs <=? 25)%nat /\
      implb (search_mos_accepts_queries qs) (http_accepts_queries qs) = true) /\
  (http_accepts_queries (repeat "q" 6) = true /\
   search_mos_accepts_queries (repeat "q" 6) = false).
Proof.
  repeat split; try reflexivity.
  - unfold search_mos_accepts_queries.
    change (tool_param_int "search_mos" "queries" "minItems") with (Some 1%Z).
    change (tool_param_int "search_mos" "queries" "maxItems") with (Some 5%Z).
    unfold within_items.
    destruct (Nat.leb_spec 1 (List.length qs)), (Nat.leb_spec (List.length qs) 5),
      (Z.leb_spec 1 (Z.of_nat (List.length qs))),
      (Z.leb_spec (Z.of_nat (List.length qs)) 5); cbn; try reflexivity; lia.
  - unfold http_accepts_queries, list_field, SearchRequest_min_items,
      SearchRequest_max_items.
    now destruct ((1 <=? List.length qs)%nat && (List.length qs <=? 25)%nat).
  - unfold search_mos_accepts_queries, http_accepts_queries, list_field,
      SearchRequest_min_items, SearchRequest_max_items.
    change (tool_param_int "search_mos" "queries" "minItems") with (Some 1%Z).
    change (tool_param_int "search_mos" "queries" "maxItems") with (Some 5%Z).
    unfold within_items.
    destruct (Nat.leb_spec 1 (List.length qs)), (Nat.leb_spec (List.length qs) 25),
      (Z.leb_spec 1 (Z.of_nat (List.length qs))),
      (Z.leb_spec (Z.of_nat (List.length qs)) 5); cbn; try reflexivity; lia.
Qed.

(* ================================================================== *)
(** ** Resilient element locator *)

Lemma locate_from_spec (page : PageOracle) (t : string) (cands : list string) :
  forall tried,
    match locate_from page t cands tried with
    | (inr h, attempted) =>
        exists before sel after,
          cands = (before ++ sel :: after)%list /\
          attempted = (tried ++ before ++ [sel])%list /\
          Forall (fun s => page s = None) before /\
          page sel = Some h
    | (inl err, attempted) =>
        err = ElementNotFound t (List.length tried + List.length cands) /\
        attempted = (tried ++ cands)%list /\
        Forall (fun s => page s = None) cands
    end.
Proof.
  induction cands as [|sel rest IH]; intros tried.
  - cbn. rewrite Nat.add_0_r, app_nil_r. repeat split. constructor.
  - cbn [locate_from]. destruct (page sel) as [h|] eqn:Hsel.
    + exists [], sel, rest. repeat split; [constructor | exact Hsel].
    + specialize (IH (tried ++ [sel])%list).
      destruct (locate_from page t rest (tried ++ [sel])%list) as [[err|h] attempted].
      * destruct IH as (-> & -> & Hall). rewrite length_app, <- app_assoc. cbn.
        repeat split; [f_equal; lia | now constructor].
      * destruct IH as (before & s & after & -> & -> & Hall & Hs).
        exists (sel :: before), s, after. rewrite <- app_assoc. cbn.
        repeat split; [now constructor | exact Hs].
Qed.

(** C8.  [locate] attempts the candidates of a chain in list order and
    stops at the first that resolves: on success the attempts are exactly
    the candidates up to and including the winner, every earlier one
    having failed, and nothing after the winner is attempted; when no
    candidate resolves every one was attempted, in order, and the result
    is the typed [ElementNotFound] naming the logical target and the
    number of candidates tried. *)
Theorem C8_locate_first_success_in_order (page : PageOracle) (chain : SelectorChain) :
  match locate page chain with
  | (inr h, attempted) =>
      exists before sel after,
        candidates chain = (before ++ sel :: after)%list /\
        attempted = (before ++ [sel])%list /\
        Forall (fun s => page s = None) before /\
        page sel = Some h
  | (inl err, attempted) =>
      err = ElementNotFound (target chain) (List.length (candidates chain)) /\
      attempted = candidates chain /\
      Forall (fun s => page s = None) (candidates chain)
  end.
Proof.
  unfold locate. exact (locate_from_spec page (target chain) (candidates chain) []).
Qed.

(** The chain [A, B, C] where A fails and B resolves: B wins and C is not
    attempted. *)
Lemma locate_stops_before_C (page : PageOracle) (t A B C : string) (h : ElementHandle) :
  page A = None -> page B = Some h ->
  locate page {| target := t; candidates := [A; B; C] |} = (inr h, [A; B]).
Proof.
  intros HA HB. unfold locate. cbn. now rewrite HA, HB.
Qed.

(** On the search box chain of the module, a page where only the aria
    selector resolves: two attempts, the other eight never made. *)
Example locate_search_box_by_aria :
  locate aria_only search_box_chain
  = (inr 1, ["#pt1\:svMenu\:gsb\:subFgsb\:mGlobalSearch\:pt_itG\:\:content";
             GLOBAL_SEARCH_ARIA]) /\
  locate (fun _ => None) search_box_chain
  = (inl (ElementNotFound "global search box" 10), SEARCH_BOX_SELECTORS).
Proof. split; reflexivity. Qed.

(* ================================================================== *)
(** ** Search execution pipeline *)

Lemma extract_walk_length (nodes : list ResultNode) :
  forall cap seen, (List.length (extract_walk nodes cap seen) <= cap)%nat.
Proof.
  induction nodes as [|n rest IH]; intros cap seen; cbn [extract_walk].
  - cbn. lia.
  - destruct cap as [|cap']; [cbn; lia|].
    destruct (parse_node n) as [r|]; [|apply IH].
    destruct (existsb (String.eqb (dedup_key r)) seen); [apply IH|].
    cbn [List.length]. specialize (IH cap' (dedup_key r :: seen)). lia.
Qed.

Lemma query_results_length (page : PageBehaviour) (max_per_query : Z) (query : string) :
  (List.length (query_results (run_query page max_per_query query))
   <= effective_cap max_per_query)%nat.
Proof.
  unfold run_query.
  destruct (session_failure page); [cbn; lia|].
  destruct (fst (locate (page_oracle page) search_box_chain)); [cbn; lia|].
  destruct (results_dom page) as [nodes|]; [|cbn; lia].
  cbn [query_results]. apply extract_walk_length.
Qed.

Lemma effective_cap_ceiling (max_per_query : Z) :
  (Z.of_nat (effective_cap max_per_query) <= RESULTS_PER_QUERY_LIMIT)%Z.
Proof. unfold effective_cap, RESULTS_PER_QUERY_LIMIT. lia. Qed.

Lemma effective_cap_request (max_per_query : Z) :
  (0 <= max_per_query)%Z ->
  (Z.of_nat (effective_cap max_per_query) <= max_per_query)%Z.
Proof. unfold effective_cap, RESULTS_PER_QUERY_LIMIT. lia. Qed.

Lemma validated_max_per_query (raw : RawSearchRequest) (req : SearchRequest) :
  validate_SearchRequest raw = inr req ->
  (1 <= max_per_query req <= RESULTS_PER_QUERY_LIMIT)%Z.
Proof.
  unfold validate_SearchRequest, int_field.
  destruct (list_field _ _ _ _) as [e|qs]; [discriminate|].
  destruct (raw_max_per_query raw) as [v|].
  - destruct (Z.leb_spec 1 v), (Z.leb_spec v RESULTS_PER_QUERY_LIMIT);
      cbn; try discriminate.
    intros [= <-]. cbn. lia.
  - intros [= <-]. cbn. unfold RESULTS_PER_QUERY_LIMIT. lia.
Qed.

(** C4.  Whatever the page and the requested [max_per_query], one query
    yields at most [RESULTS_PER_QUERY_LIMIT] = 20 results; for a requested
    value up to 20 it yields at most that many, and so for every request
    the [/search] route lets through. *)
Theorem C4_results_per_query_capped (page : PageBehaviour) (query : string) :
  (forall max_per_query : Z,
      (result_count page max_per_query query <= RESULTS_PER_QUERY_LIMIT)%Z) /\
  (forall max_per_query : Z,
      (0 <= max_per_query)%Z -> (max_per_query <= 20)%Z ->
      (result_count page max_per_query query <= max_per_query)%Z) /\
  (forall raw req,
      validate_SearchRequest raw = inr req ->
      (result_count page (max_per_query req) query <= max_per_query req)%Z).
Proof.
  assert (Hreq : forall m, (0 <= m)%Z -> (result_count page m query <= m)%Z).
  { intros m Hm. unfold result_count.
    pose proof (query_results_length page m query).
    pose proof (effective_cap_request m Hm). lia. }
  repeat split.
  - intros m. unfold result_count.
    pose proof (query_results_length page m query).
    pose proof (effective_cap_ceiling m). lia.
  - intros m Hlo _. now apply Hreq.
  - intros raw req Hv. apply Hreq.
    pose proof (validated_max_per_query raw req Hv). lia.
Qed.

(** C4 on the fixture page: five nodes, one without title and one repeated
    document; asked for 2 the query yields 2, asked for 100 it yields the
    3 distinct well-formed ones. *)
Lemma C4_results_per_query_capped_witness :
  (0 <= 2)%Z /\ (2 <= 20)%Z /\
  (result_count (page_with three_nodes) 2 "ORA-00600" <= 2)%Z /\
  (result_count (page_with three_nodes) 100 "ORA-00600" <= RESULTS_PER_QUERY_LIMIT)%Z /\
  (result_count (page_with three_nodes)
     (max_per_query {| queries := ["ORA-00600"]; max_per_query := 2 |}) "ORA-00600"
   <= 2)%Z.
Proof.
  destruct (C4_results_per_query_capped (page_with three_nodes) "ORA-00600")
    as (Hceil & Hreq & Hval).
  repeat split.
  - lia.
  - lia.
  - apply Hreq; lia.
  - apply Hceil.
  - apply (Hval {| raw_queries := Some ["ORA-00600"]; raw_max_per_query := Some 2%Z |}).
    reflexivity.
Defined.

Lemma execute_from_spec (portal : Portal) (max_per_query : Z) (qs : list string) :
  forall i,
    forallb (fun o => negb (is_systemic o)) (batch_outcomes portal i qs max_per_query)
    = true ->
    execute_from portal i qs max_per_query
    = inr (List.concat (map query_results (batch_outcomes portal i qs max_per_query))).
Proof.
  induction qs as [|q rest IH]; intros i Hok; [reflexivity|].
  cbn [batch_outcomes forallb] in Hok. apply andb_prop in Hok as [Hq Hrest].
  cbn [execute_from batch_outcomes map List.concat].
  rewrite (IH (S i) Hrest).
  now destruct (run_query (portal i q) max_per_query q).
Qed.

Lemma no_session_failure_not_systemic (page : PageBehaviour) (m : Z) (q : string) :
  session_failure page = None -> is_systemic (run_query page m q) = false.
Proof.
  intros Hs. unfold run_query. rewrite Hs.
  destruct (fst (locate (page_oracle page) search_box_chain)); [reflexivity|].
  now destruct (results_dom page).
Qed.

Lemma batch_not_systemic (portal : Portal) (max_per_query : Z) (qs : list string) :
  (forall i q, session_failure (portal i q) = None) ->
  forall i,
    forallb (fun o => negb (is_systemic o)) (batch_outcomes portal i qs max_per_query)
    = true.
Proof.
  intros Hs. induction qs as [|q rest IH]; intros i; [reflexivity|].
  cbn [batch_outcomes forallb].
  now rewrite (no_session_failure_not_systemic _ _ _ (Hs i q)), IH.
Qed.

Lemma length_concat_sum {A} (ls : list (list A)) :
  List.length (List.concat ls) = list_sum (map (@List.length A) ls).
Proof.
  induction ls as [|l ls IH]; [reflexivity|].
  cbn. now rewrite length_app, IH.
Qed.

Lemma batch_outcomes_capped (portal : Portal) (max_per_query : Z) (qs : list string) :
  forall i,
    Forall (fun o => (List.length (query_results o) <= effective_cap max_per_query)%nat)
           (batch_outcomes portal i qs max_per_query).
Proof.
  induction qs as [|q rest IH]; intros i; cbn [batch_outcomes]; constructor.
  - apply query_results_length.
  - apply IH.
Qed.

Lemma batch_outcomes_length (portal : Portal) (max_per_query : Z) (qs : list string) :
  forall i, List.length (batch_outcomes portal i qs max_per_query) = List.length qs.
Proof.
  induction qs as [|q rest IH]; intros i; [reflexivity|].
  cbn [batch_outcomes List.length]. now rewrite IH.
Qed.

(** C5.  In a batch whose queries fail only locally (element not found,
    navigation timeout), the batch does not fail: every query is run, the
    aggregate is the results of the queries in submission order, a failed
    query standing for none, and its length is the sum of the result
    counts of the queries, each under the cap. *)
Theorem C5_batch_survives_query_failures (portal : Portal) (qs : list string)
  (max_per_query : Z) :
  (forall i q, session_failure (portal i q) = None) ->
  let outcomes := batch_outcomes portal 0 qs max_per_query in
  List.length outcomes = List.length qs /\
  execute_from portal 0 qs max_per_query = inr (List.concat (map query_results outcomes)) /\
  (forall g, execute_queries_spec portal qs max_per_query g
             = (Returned (PyList (map result_to_py
                                    (List.concat (map query_results outcomes)))), g)) /\
  List.length (List.concat (map query_results outcomes))
  = list_sum (map (fun o => List.length (query_results o)) outcomes) /\
  Forall (fun o => (List.length (query_results o) <= effective_cap max_per_query)%nat)
         outcomes /\
  (forall o f, In o outcomes -> o = QueryFailed f -> query_results o = []).
Proof.
  intros Hs outcomes.
  pose proof (execute_from_spec portal max_per_query qs 0
                (batch_not_systemic portal max_per_query qs Hs 0)) as Hexec.
  fold outcomes in Hexec.
  repeat split.
  - apply batch_outcomes_length.
  - exact Hexec.
  - intros g. unfold execute_queries_spec. now rewrite Hexec.
  - now rewrite length_concat_sum, map_map.
  - apply batch_outcomes_capped.
  - intros o f _ ->. reflexivity.
Qed.

(** C5 on a batch of three whose second query finds no search box: the
    aggregate holds the two results of the first query followed by the
    two of the third. *)
Lemma C5_batch_survives_query_failures_witness :
  batch_outcomes portal_second_fails 0 ["ORA-00600"; "ORA-01555"; "ORA-04031"] 2
  = [QueryResults [{| doc_id := Some "1"; title := "first"; url := "/doc/1";
                      snippet := "" |};
                   {| doc_id := Some "2"; title := "second"; url := "/doc/2";
                      snippet := "" |}];
     QueryFailed (QElementNotFound (ElementNotFound "global search box" 10));
     QueryResults [{| doc_id := Some "1"; title := "first"; url := "/doc/1";
                      snippet := "" |};
                   {| doc_id := Some "2"; title := "second"; url := "/doc/2";
                      snippet := "" |}]] /\
  exists rs,
    execute_from portal_second_fails 0 ["ORA-00600"; "ORA-01555"; "ORA-04031"] 2
    = inr rs /\ List.length rs = 4%nat.
Proof.
  split; [reflexivity|].
  destruct (C5_batch_survives_query_failures portal_second_fails
              ["ORA-00600"; "ORA-01555"; "ORA-04031"] 2) as (_ & Hexec & _).
  - intros i q. destruct i as [|[|i]]; reflexivity.
  - eexists. split; [exact Hexec | reflexivity].
Defined.

(* ================================================================== *)
(** ** Tool-dispatch loop *)

Section DispatchFacts.
Variable round_cap : nat.
Variable llm : LLM.
Variable exec : ToolExecutor.

Lemma step_none_iff_terminal (s : LoopState) :
  step round_cap llm exec s = None <-> is_terminal s = true.
Proof.
  destruct s as [conv r p | conv calls r p | reply r | p r f]; cbn.
  - destruct (round_cap <=? r)%nat; [easy|].
    destruct (resp_tool_calls (llm r conv)); easy.
  - easy.
  - easy.
  - easy.
Qed.

Lemma step_decreases (s s' : LoopState) :
  step round_cap llm exec s = Some s' ->
  (steps_left round_cap s' < steps_left round_cap s)%nat.
Proof.
  destruct s as [conv r p | conv calls r p | reply r | p r f]; cbn [step].
  - destruct (Nat.leb_spec round_cap r).
    + intros [= <-]. cbn. lia.
    + destruct (resp_tool_calls (llm r conv)); intros [= <-]; cbn; lia.
  - intros [= <-]. cbn. lia.
  - discriminate.
  - discriminate.
Qed.

Lemma step_keeps_rounds_under_cap (s s' : LoopState) :
  step round_cap llm exec s = Some s' ->
  (rounds_of s <= round_cap)%nat -> (rounds_of s' <= round_cap)%nat.
Proof.
  destruct s as [conv r p | conv calls r p | reply r | p r f]; cbn [step].
  - destruct (Nat.leb_spec round_cap r).
    + intros [= <-]. cbn. lia.
    + destruct (resp_tool_calls (llm r conv)); intros [= <-]; cbn; lia.
  - intros [= <-]. cbn. lia.
  - discriminate.
  - discriminate.
Qed.

(** The loop ends: from any state, as many transitions as [steps_left]
    counts reach [answered] or [exhausted]. *)
Lemma run_reaches_terminal (fuel : nat) :
  forall s, (steps_left round_cap s <= fuel)%nat ->
            is_terminal (run round_cap llm exec fuel s) = true.
Proof.
  induction fuel as [|fuel IH]; intros s Hs.
  - destruct s; cbn in *; try reflexivity; lia.
  - cbn [run]. destruct (step round_cap llm exec s) as [s'|] eqn:Hstep.
    + apply IH. pose proof (step_decreases s s' Hstep). lia.
    + now apply step_none_iff_terminal.
Qed.

Lemma run_rounds_under_cap (fuel : nat) :
  forall s, (rounds_of s <= round_cap)%nat ->
            (rounds_of (run round_cap llm exec fuel s) <= round_cap)%nat.
Proof.
  induction fuel as [|fuel IH]; intros s Hs; [exact Hs|].
  cbn [run]. destruct (step round_cap llm exec s) as [s'|] eqn:Hstep; [|exact Hs].
  apply IH. now apply (step_keeps_rounds_under_cap s s').
Qed.

(** A terminal state is where the loop stays, whatever is left to run. *)
Lemma run_terminal (fuel : nat) (s : LoopState) :
  is_terminal s = true -> run round_cap llm exec fuel s = s.
Proof.
  intros Ht. destruct fuel; [reflexivity|]. cbn [run].
  now rewrite (proj2 (step_none_iff_terminal s) Ht).
Qed.

Lemma run_add (fuel extra : nat) :
  forall s, run round_cap llm exec (fuel + extra) s
            = run round_cap llm exec extra (run round_cap llm exec fuel s).
Proof.
  induction fuel as [|fuel IH]; intros s; [reflexivity|].
  cbn [Nat.add run]. destruct (step round_cap llm exec s) as [s'|] eqn:Hstep.
  - apply IH.
  - symmetry. apply run_terminal. now apply step_none_iff_terminal.
Qed.

(** An LLM that asks for a tool on every turn uses every round. *)
Lemma run_always_calling (left : nat) :
  (forall r c, resp_tool_calls (llm r c) <> []) ->
  forall conv r partial fuel,
    (r + left = round_cap)%nat -> (2 * left + 1 <= fuel)%nat ->
    exists partial',
      run round_cap llm exec fuel (planning conv r partial)
      = exhausted partial' round_cap true.
Proof.
  intros Hcalls. induction left as [|left IH]; intros conv r partial fuel Hr Hfuel.
  - destruct fuel as [|fuel]; [lia|]. cbn [run step].
    destruct (Nat.leb_spec round_cap r); [|lia].
    exists partial. rewrite run_terminal by reflexivity. f_equal. lia.
  - destruct fuel as [|[|fuel]]; try lia. cbn [run step].
    destruct (Nat.leb_spec round_cap r); [lia|].
    destruct (resp_tool_calls (llm r conv)) as [|c calls] eqn:Hc;
      [now destruct (Hcalls r conv)|].
    cbn [step]. apply IH; lia.
Qed.
End DispatchFacts.

(** C9.  For every round cap, LLM, tool executor and conversation the
    dispatch loop ends in [answered] or [exhausted], after at most
    [round_cap] rounds, and no further budget changes where it ends.
    With a cap of at least one round, a first response without tool calls
    ends it [answered] after exactly one round.  An LLM that asks for a
    tool on every turn ends it [exhausted] at the cap, with the partial
    answer and the cap flag set. *)
Theorem C9_dispatch_loop_terminates (round_cap : nat) (llm : LLM)
  (exec : ToolExecutor) (conv : list ChatMessage) :
  let final := respond round_cap llm exec conv in
  is_terminal final = true /\
  (rounds_of final <= round_cap)%nat /\
  (forall extra,
      run round_cap llm exec (2 * round_cap + 1 + extra) (planning conv 0 "") = final) /\
  ((1 <= round_cap)%nat -> resp_tool_calls (llm 0%nat conv) = [] ->
   final = answered (resp_content (llm 0%nat conv)) 1) /\
  ((forall r c, resp_tool_calls (llm r c) <> []) ->
   exists partial, final = exhausted partial round_cap true).
Proof.
  intros final.
  assert (Hterm : is_terminal final = true).
  { apply run_reaches_terminal. cbn [steps_left]. lia. }
  repeat split.
  - exact Hterm.
  - apply run_rounds_under_cap. cbn. lia.
  - intros extra. rewrite run_add. now apply run_terminal.
  - intros Hcap Hnone. subst final. unfold respond.
    replace (2 * round_cap + 1)%nat with (S (2 * round_cap)) by lia.
    cbn [run step]. destruct (Nat.leb_spec round_cap 0); [lia|].
    rewrite Hnone. now apply run_terminal.
  - intros Hcalls. apply (run_always_calling round_cap llm exec round_cap Hcalls); lia.
Qed.

(** C9 with a cap of three rounds: an LLM that answers at once ends the
    loop answered after one round; one that always asks for a search ends
    it exhausted after three. *)
Lemma C9_dispatch_loop_terminates_witness :
  (1 <= 3)%nat /\
  respond 3 llm_answers exec_fixture user_turn = answered "done" 1 /\
  (forall r c, resp_tool_calls (llm_always_calls r c) <> []) /\
  exists partial,
    respond 3 llm_always_calls exec_fixture user_turn = exhausted partial 3 true.
Proof.
  split; [lia|]. split; [|split].
  - apply (C9_dispatch_loop_terminates 3 llm_answers exec_fixture user_turn);
      [lia | reflexivity].
  - intros r c. discriminate.
  - apply (C9_dispatch_loop_terminates 3 llm_always_calls exec_fixture user_turn).
    intros r c. discriminate.
Defined.

Example dispatch_loop_exhausted_value :
  respond 3 llm_always_calls exec_fixture user_turn = exhausted "searching" 3 true.
Proof. reflexivity. Qed.

(* ================================================================== *)
(** * Further properties of the module *)

(** ** The session manager on every world *)

(** The candidate loop on any world: it touches only the output and the
    file system, and attempts a prefix of its candidates, in order: all of
    them when it ends normally, up to the one [os.makedirs] failed on for
    another reason than permissions otherwise. *)
Lemma try_candidates_effects (w : World) (cands : list string) :
  forall attempted g,
    let r := try_candidates w cands attempted g in
    (same_session g (snd r) /\ closed_contexts (snd r) = closed_contexts g) /\
    exists tried rest,
      cands = (tried ++ rest)%list /\
      makedirs_calls (snd r) = (makedirs_calls g ++ tried)%list /\
      match fst r with
      | Returned _ => rest = []
      | Raised x => exists p, x = OSError p /\ makedirs_outcome w p = MkdirOtherError
      end.
Proof.
  induction cands as [|c rest IH]; intros attempted g.
  - cbn. split; [split; [apply same_session_refl | reflexivity]|].
    exists [], []. rewrite !app_nil_r. repeat split.
  - cbn zeta. cbn [try_candidates]. run_monad.
    destruct (makedirs_outcome w c) eqn:Hc; run_monad.
    + loop_ih IH Hloop.
      destruct Hloop as [[Hs Hcl] (tried & rest' & -> & Hcalls & Hres)].
      split; [split|].
      * eapply same_session_trans; [|exact Hs]. repeat split.
      * exact Hcl.
      * exists (c :: tried), rest'. rewrite Hcalls. cbn. rewrite <- app_assoc.
        repeat split. exact Hres.
    + loop_ih IH Hloop.
      destruct Hloop as [[Hs Hcl] (tried & rest' & -> & Hcalls & Hres)].
      split; [split|].
      * eapply same_session_trans; [|exact Hs]. repeat split.
      * exact Hcl.
      * exists (c :: tried), rest'. rewrite Hcalls. cbn. rewrite <- app_assoc.
        repeat split. exact Hres.
    + split; [split; [repeat split | reflexivity]|].
      exists [c], rest. repeat split. now exists c.
Qed.

(** Brings the goal to the candidate loop's result and its effects. *)
Ltac at_loop w :=
  cbn [_profile_dir_in_use _play _ctx _ctx_headless last_search_data
       closed_contexts makedirs_calls add_stdout set_ctx add_closed set_play];
  match goal with
  | |- context [try_candidates w ?cs ?a ?g0] =>
      let Hloop := fresh "Hloop" in
      pose proof (try_candidates_effects w cs a g0) as Hloop;
      cbn zeta in Hloop;
      destruct (try_candidates w cs a g0) as [[?|?] ?];
      cbn [fst snd] in Hloop |- *;
      destruct Hloop as [[(?Hp & ?Hc & ?Hh & ?Hd & ?Hl) ?Hcl]
                           (?tried & ?rest & ?Hcs & ?Hcalls & _)];
      cbn [_profile_dir_in_use _play _ctx _ctx_headless last_search_data
           closed_contexts makedirs_calls add_stdout set_ctx add_closed set_play]
        in *
  end.

(** What one call of [_ensure_context] does to the globals, on any world
    and whatever its outcome. *)
Lemma ensure_context_effects (e : OsEnviron) (w : World) (headless : bool)
  (g : Globals) :
  let r := _ensure_context e w headless g in
  (_ctx_headless (snd r) = _ctx_headless g /\
   _profile_dir_in_use (snd r) = _profile_dir_in_use g /\
   last_search_data (snd r) = last_search_data g) /\
  match _play g with
  | Some p => _play (snd r) = Some p
  | None => _play (snd r) = None \/ _play (snd r) = playwright_start w
  end /\
  match _ctx g with
  | Some c =>
      if ctx_matches g headless || close_raises w c then snd r = g
      else _ctx (snd r) = None /\
           closed_contexts (snd r) = (closed_contexts g ++ [c])%list
  | None => _ctx (snd r) = None /\ closed_contexts (snd r) = closed_contexts g
  end /\
  (exists tried rest,
      profile_candidates e g = (tried ++ rest)%list /\
      makedirs_calls (snd r) = (makedirs_calls g ++ tried)%list).
Proof.
  assert (Hnone : exists tried rest,
             profile_candidates e g = (tried ++ rest)%list /\
             makedirs_calls g = (makedirs_calls g ++ tried)%list).
  { exists [], (profile_candidates e g). now rewrite app_nil_r. }
  assert (Hsame : match _play g with
                  | Some p => _play g = Some p
                  | None => _play g = None \/ _play g = playwright_start w
                  end).
  { destruct (_play g); auto. }
  cbn zeta. unfold profile_candidates in *. unfold _ensure_context. run_monad.
  destruct (ctx_matches g headless) eqn:Hm; run_monad.
  { repeat split; auto.
    unfold ctx_matches in Hm. destruct (_ctx g); [reflexivity | discriminate]. }
  rewrite Hm. clear Hsame.
  destruct (_ctx g) as [c|] eqn:Hctx; run_monad.
  - destruct (close_raises w c) eqn:Hcl0; run_monad.
    { repeat split; auto. destruct (_play g); auto. }
    cbn [_play set_ctx add_closed orb].
    destruct (_play g) as [p|] eqn:Hplay; run_monad.
    + at_loop w; (repeat split; try congruence; exists tried, rest; split; assumption).
    + destruct (playwright_start w) as [p|]; run_monad.
      * at_loop w;
          (repeat split; try congruence; try (right; congruence);
           exists tried, rest; split; assumption).
      * cbn [_play _ctx _ctx_headless _profile_dir_in_use last_search_data
             closed_contexts makedirs_calls set_ctx add_closed].
        repeat split; try congruence; auto.
  - destruct (_play g) as [p|] eqn:Hplay; run_monad.
    + at_loop w; (repeat split; try congruence; exists tried, rest; split; assumption).
    + destruct (playwright_start w) as [p|]; run_monad.
      * at_loop w;
          (repeat split; try congruence; try (right; congruence);
           exists tried, rest; split; assumption).
      * repeat split; try congruence; auto.
Qed.

(** ** The candidate list of lines 222-225 *)

Lemma existsb_eqb_In (c : string) (l : list string) :
  existsb (String.eqb c) l = true <-> In c l.
Proof.
  rewrite existsb_exists. split.
  - intros (x & Hin & Heq). apply String.eqb_eq in Heq. now subst.
  - intros Hin. exists c. split; [exact Hin | apply String.eqb_refl].
Qed.

Lemma filter_twice {A} (f h : A -> bool) (l : list A) :
  filter f (filter h l) = filter (fun x => h x && f x) l.
Proof.
  induction l as [|x l IH]; [reflexivity|].
  cbn. destruct (h x); cbn; [destruct (f x)|]; now rewrite IH.
Qed.

(** The loop with names already listed: they stay in front, and of the
    rest only what is not among them is added. *)
Lemma collect_candidates_from (cands : list string) :
  forall listed,
    collect_candidates cands listed
    = (listed ++ filter (fun c => negb (existsb (String.eqb c) listed))
                        (collect_candidates cands []))%list.
Proof.
  induction cands as [|c rest IH]; intros listed.
  - cbn. now rewrite app_nil_r.
  - cbn [collect_candidates existsb app]. destruct (String.eqb c "") eqn:Hempty.
    + cbn [negb andb]. apply IH.
    + cbn [negb andb].
      rewrite (IH [c]).
      destruct (existsb (String.eqb c) listed) eqn:Hin; cbn [negb app filter].
      * rewrite Hin. cbn [negb]. rewrite IH, filter_twice. f_equal.
        apply filter_ext_in. intros x _. cbn [existsb].
        destruct (String.eqb_spec x c) as [->|_]; cbn; [now rewrite Hin|].
        reflexivity.
      * rewrite Hin. cbn [negb]. rewrite IH, filter_twice, <- app_assoc. cbn [app].
        do 2 f_equal. apply filter_ext. intros x.
        rewrite existsb_app. cbn [existsb]. rewrite !orb_false_r.
        now destruct (String.eqb x c), (existsb (String.eqb x) listed).
Qed.

Lemma In_first_occurrences (x : string) (l : list string) :
  In x (first_occurrences l) <-> In x l.
Proof.
  induction l as [|y l IH]; [reflexivity|].
  cbn [first_occurrences In]. rewrite filter_In, IH.
  destruct (String.eqb_spec x y) as [->|Hne]; cbn.
  - split; [intros [?|[? ?]]; auto | auto].
  - split; [intros [?|[? _]]; auto | intros [?|?]; auto].
Qed.

Lemma NoDup_first_occurrences (l : list string) : NoDup (first_occurrences l).
Proof.
  induction l as [|y l IH]; cbn [first_occurrences]; constructor.
  - rewrite filter_In. intros [_ H]. now rewrite String.eqb_refl in H.
  - now apply NoDup_filter.
Qed.

Lemma collect_candidates_first_occurrences (cands : list string) :
  collect_candidates cands []
  = first_occurrences (filter (fun c => negb (String.eqb c "")) cands).
Proof.
  induction cands as [|c rest IH]; [reflexivity|].
  cbn [collect_candidates existsb filter]. rewrite andb_true_r.
  destruct (String.eqb c ""); cbn [negb]; [exact IH|].
  rewrite collect_candidates_from, IH. cbn [app first_occurrences]. f_equal.
  apply filter_ext. intros x. cbn [existsb]. now rewrite orb_false_r.
Qed.

Lemma collect_candidates_length (cands : list string) :
  (List.length (collect_candidates cands []) <= List.length cands)%nat.
Proof.
  rewrite collect_candidates_first_occurrences.
  induction cands as [|c rest IH]; [cbn; lia|].
  cbn [filter]. destruct (negb (String.eqb c "")); cbn [first_occurrences List.length].
  - pose proof (filter_length_le (fun y => negb (String.eqb y c))
                  (first_occurrences (filter (fun c0 => negb (String.eqb c0 "")) rest))).
    lia.
  - lia.
Qed.

(** X1.  The candidate list built by lines 222-225 is the stable
    de-duplication of the non-empty paths it is given: each non-empty
    path once, at the place of its first occurrence; no empty path, no
    repeat, never more entries than paths given. *)
Theorem collect_candidates_stable_dedup (cands : list string) :
  collect_candidates cands []
  = first_occurrences (filter (fun c => negb (String.eqb c "")) cands) /\
  NoDup (collect_candidates cands []) /\
  existsb (String.eqb "") (collect_candidates cands []) = false /\
  (List.length (collect_candidates cands []) <= List.length cands)%nat.
Proof.
  split; [apply collect_candidates_first_occurrences|].
  split; [|split; [|apply collect_candidates_length]].
  - rewrite collect_candidates_first_occurrences. apply NoDup_first_occurrences.
  - rewrite collect_candidates_first_occurrences.
    destruct (existsb (String.eqb "") (first_occurrences
               (filter (fun c => negb (String.eqb c "")) cands))) eqn:Hex;
      [|reflexivity].
    apply existsb_eqb_In, In_first_occurrences, filter_In in Hex.
    destruct Hex as [_ Hex]. discriminate.
Qed.

(** ** One call of [_ensure_context], on every world *)


(** X3.  With a live context of the requested mode the call is a pure
    read: it returns that context and leaves the globals, the output and
    the file system as they are, also on a world where closing, the
    engine and the directories would all fail. *)
Theorem ensure_context_reuse_has_no_effect (e : OsEnviron) (w : World)
  (headless : bool) (g : Globals) :
  ctx_matches g headless = true ->
  exists c, _ctx g = Some c /\
            _ensure_context e w headless g = (Returned (Some c), g).
Proof.
  intros Hm. rewrite (ensure_context_reuse e w headless g Hm).
  unfold ctx_matches in Hm. destruct (_ctx g) as [c|]; [|discriminate].
  now exists c.
Qed.

Lemma ensure_context_reuse_has_no_effect_witness :
  ctx_matches (with_live_context 7 true globals_fresh) true = true /\
  exists c, _ctx (with_live_context 7 true globals_fresh) = Some c /\
            _ensure_context env_default world_broken true
              (with_live_context 7 true globals_fresh)
            = (Returned (Some c), with_live_context 7 true globals_fresh).
Proof.
  split; [reflexivity|].
  apply (ensure_context_reuse_has_no_effect env_default world_broken true
           (with_live_context 7 true globals_fresh)).
  reflexivity.
Defined.

(** X4.  On a mode mismatch with a context that closes, the old context
    is closed exactly once and [_ctx] is cleared before anything that can
    fail: however the call ends (engine not starting, a directory
    failing), no stale context is left in [_ctx]. *)
Theorem ensure_context_mismatch_clears_ctx (e : OsEnviron) (w : World)
  (headless : bool) (g : Globals) (c : BrowserContext) :
  _ctx g = Some c -> ctx_matches g headless = false -> close_raises w c = false ->
  _ctx (snd (_ensure_context e w headless g)) = None /\
  closed_contexts (snd (_ensure_context e w headless g))
  = (closed_contexts g ++ [c])%list.
Proof.
  intros Hctx Hm Hcl.
  destruct (ensure_context_effects e w headless g) as (_ & _ & H & _).
  cbn zeta in H. rewrite Hctx, Hm, Hcl in H. exact H.
Qed.

Lemma ensure_context_mismatch_clears_ctx_witness :
  let w := {| makedirs_outcome := fun _ => MkdirOtherError;
              playwright_start := None;
              close_raises := fun _ => false |} in
  let g := with_live_context 7 true globals_fresh in
  fst (_ensure_context env_default w false g) = Raised (OSError "/home/mos/.mos_profile") /\
  _ctx (snd (_ensure_context env_default w false g)) = None /\
  closed_contexts (snd (_ensure_context env_default w false g)) = [7].
Proof.
  split; [reflexivity|].
  apply (ensure_context_mismatch_clears_ctx env_default
           {| makedirs_outcome := fun _ => MkdirOtherError;
              playwright_start := None;
              close_raises := fun _ => false |}
           false (with_live_context 7 true globals_fresh) 7); reflexivity.
Defined.

(** X5.  When closing the old context fails, the error leaves the call
    and nothing else has happened: the globals, the output and the file
    system are as before, the context that did not close still in
    [_ctx]. *)
Theorem ensure_context_close_failure_changes_nothing (e : OsEnviron) (w : World)
  (headless : bool) (g : Globals) (c : BrowserContext) :
  _ctx g = Some c -> ctx_matches g headless = false -> close_raises w c = true ->
  _ensure_context e w headless g = (Raised PlaywrightError, g).
Proof.
  intros Hctx Hm Hcl. unfold _ensure_context. run_monad.
  rewrite Hm. run_monad. rewrite Hm, Hctx. run_monad. rewrite Hcl. reflexivity.
Qed.

Lemma ensure_context_close_failure_changes_nothing_witness :
  _ctx (with_live_context 7 true globals_fresh) = Some 7 /\
  _ensure_context env_default world_close_fails false
    (with_live_context 7 true globals_fresh)
  = (Raised PlaywrightError, with_live_context 7 true globals_fresh).
Proof.
  split; [reflexivity|].
  apply (ensure_context_close_failure_changes_nothing env_default world_close_fails
           false (with_live_context 7 true globals_fresh) 7); reflexivity.
Defined.

(** X6.  On every world and whatever its outcome, a call leaves
    [_ctx_headless], [_profile_dir_in_use] and [last_search_data] as they
    were, and keeps an engine that was started: the engine is started
    only when there is none. *)
Theorem ensure_context_keeps_mode_directory_engine (e : OsEnviron) (w : World)
  (headless : bool) (g : Globals) :
  let g' := snd (_ensure_context e w headless g) in
  _ctx_headless g' = _ctx_headless g /\
  _profile_dir_in_use g' = _profile_dir_in_use g /\
  last_search_data g' = last_search_data g /\
  match _play g with
  | Some p => _play g' = Some p
  | None => _play g' = None \/ _play g' = playwright_start w
  end.
Proof.
  destruct (ensure_context_effects e w headless g) as ((H1 & H2 & H3) & Hp & _ & _).
  cbn zeta in *. repeat split; assumption.
Qed.


(** ** Runs of calls *)

Lemma ensure_context_calls_invariant (e : OsEnviron) (calls : list (World * bool)) :
  forall g,
    _ctx g = None ->
    let g' := ensure_context_calls e calls g in
    _ctx g' = None /\ _ctx_headless g' = _ctx_headless g /\
    _profile_dir_in_use g' = _profile_dir_in_use g /\
    closed_contexts g' = closed_contexts g /\
    last_search_data g' = last_search_data g.
Proof.
  induction calls as [|[w h] rest IH]; intros g Hctx; [now repeat split|].
  cbn [ensure_context_calls].
  destruct (ensure_context_effects e w h g) as ((H1 & H2 & H3) & _ & H & _).
  cbn zeta in *. rewrite Hctx in H. destruct H as [Hc Hcl].
  destruct (IH _ Hc) as (I1 & I2 & I3 & I4 & I5).
  repeat split; congruence.
Qed.

(** X8.  From the import on, through any run of calls of
    [_ensure_context] (any modes, any worlds, any outcomes), the globals
    never hold a context: [_ctx] and [_ctx_headless] stay [None], the
    directory in use stays the home fallback, nothing is ever closed, and
    the next call never hands out a context. *)
Theorem ensure_context_calls_never_hold_a_context (e : OsEnviron) (w0 : World)
  (calls : list (World * bool)) :
  let g := ensure_context_calls e calls (snd (module_import e w0)) in
  (_ctx g = None /\ _ctx_headless g = None /\
   _profile_dir_in_use g = FALLBACK_PROFILE_DIR e /\
   closed_contexts g = [] /\ last_search_data g = PyNone) /\
  (forall w headless,
      match fst (_ensure_context e w headless g) with
      | Returned r => r = None
      | Raised _ => True
      end).
Proof.
  assert (Himp : _ctx (snd (module_import e w0)) = None /\
                 _ctx_headless (snd (module_import e w0)) = None /\
                 _profile_dir_in_use (snd (module_import e w0))
                 = FALLBACK_PROFILE_DIR e /\
                 closed_contexts (snd (module_import e w0)) = [] /\
                 last_search_data (snd (module_import e w0)) = PyNone).
  { unfold module_import. run_monad.
    destruct (makedirs_outcome w0 _); now repeat split. }
  destruct Himp as (J1 & J2 & J3 & J4 & J5).
  destruct (ensure_context_calls_invariant e calls _ J1) as (I1 & I2 & I3 & I4 & I5).
  cbn zeta in *. split; [repeat split; congruence|].
  intros w headless.
  destruct (fst (_ensure_context e w headless _)) as [r|x] eqn:Hr; [|exact I].
  assert (Hm : ctx_matches (ensure_context_calls e calls (snd (module_import e w0)))
                           headless = false).
  { unfold ctx_matches. now rewrite I1. }
  exact (proj1 (ensure_context_returns_none e w headless _ r Hm Hr)).
Qed.

(** ** The [/search] route and [last_search_data] *)

(** X9.  With an [_execute_queries] that does not itself write
    [last_search_data], a request to [/search] changes it only by
    succeeding: a body refused by validation and a search that raises
    leave the previous response in place; a search that returns replaces
    it by its response. *)
Theorem post_search_updates_last_only_on_success
  (_execute_queries : list string -> Z -> M PyValue)
  (raw : RawSearchRequest) (g : Globals) :
  (forall qs m g0,
      last_search_data (snd (_execute_queries qs m g0)) = last_search_data g0) ->
  match fst (post_search _execute_queries raw g) with
  | Returned r => last_search_data (snd (post_search _execute_queries raw g)) = r
  | Raised _ =>
      last_search_data (snd (post_search _execute_queries raw g)) = last_search_data g
  end.
Proof.
  intros Hkeeps. unfold post_search, fastapi_route.
  destruct (validate_SearchRequest raw) as [err|req]; [reflexivity|].
  unfold search. run_monad.
  specialize (Hkeeps (queries req) (max_per_query req) g).
  destruct (_execute_queries (queries req) (max_per_query req) g) as [[r|x] g1];
    cbn [fst snd] in *; [reflexivity | exact Hkeeps].
Qed.

Lemma post_search_updates_last_only_on_success_witness :
  let ok := post_search exec_count
              {| raw_queries := Some ["a"; "b"]; raw_max_per_query := None |}
              globals_fresh in
  let failed := post_search exec_fails
                  {| raw_queries := Some ["c"]; raw_max_per_query := None |} (snd ok) in
  let refused := post_search exec_count
                   {| raw_queries := Some []; raw_max_per_query := None |} (snd ok) in
  last_search_data (snd ok) = PyInt 2 /\
  last_search_data (snd failed) = PyInt 2 /\
  last_search_data (snd refused) = PyInt 2.
Proof.
  cbn zeta. split; [|split].
  - apply (post_search_updates_last_only_on_success exec_count
             {| raw_queries := Some ["a"; "b"]; raw_max_per_query := None |}
             globals_fresh).
    intros qs m g0. reflexivity.
  - apply (post_search_updates_last_only_on_success exec_fails
             {| raw_queries := Some ["c"]; raw_max_per_query := None |}
             (snd (post_search exec_count
                     {| raw_queries := Some ["a"; "b"]; raw_max_per_query := None |}
                     globals_fresh))).
    intros qs m g0. reflexivity.
  - apply (post_search_updates_last_only_on_success exec_count
             {| raw_queries := Some []; raw_max_per_query := None |}
             (snd (post_search exec_count
                     {| raw_queries := Some ["a"; "b"]; raw_max_per_query := None |}
                     globals_fresh))).
    intros qs m g0. reflexivity.
Defined.

(** ** The request models *)

(** X10.  A request that a model validated is within the model's bounds
    (1 to 25 queries and 1 to 20 results a query; a non-empty log text, 1
    to 25 queries, 1 to 20 results a query) and validates again to
    itself: validation fills in the defaults and changes nothing else. *)
Theorem validated_requests_within_bounds_and_stable :
  (forall raw req,
      validate_SearchRequest raw = inr req ->
      ((1 <= List.length (queries req) <= 25)%nat /\
       (1 <= max_per_query req <= 20)%Z) /\
      validate_SearchRequest (raw_of_SearchRequest req) = inr req) /\
  (forall raw req,
      validate_LogSearchRequest raw = inr req ->
      ((1 <= String.length (log_text req))%nat /\
       (1 <= max_queries req <= 25)%Z /\
       (1 <= log_max_per_query req <= 20)%Z) /\
      validate_LogSearchRequest (raw_of_LogSearchRequest req) = inr req).
Proof.
  assert (Hint : forall name lo hi raw v,
             (lo <= 5 <= hi)%Z ->
             int_field name 5 lo hi raw = inr v ->
             (lo <= v <= hi)%Z /\ int_field name 5 lo hi (Some v) = inr v).
  { intros name lo hi raw v Hdef. unfold int_field.
    destruct raw as [x|].
    - destruct ((lo <=? x) && (x <=? hi))%Z eqn:Hb; [|discriminate].
      intros [= <-]. rewrite Hb. split; [|reflexivity].
      apply andb_prop in Hb as [H1 H2].
      apply Z.leb_le in H1. apply Z.leb_le in H2. lia.
    - intros [= <-].
      assert (Hb : ((lo <=? 5) && (5 <=? hi))%Z = true).
      { apply andb_true_intro. split; apply Z.leb_le; lia. }
      rewrite Hb. split; [lia | reflexivity]. }
  split; intros raw req.
  - unfold validate_SearchRequest, list_field, SearchRequest_min_items,
      SearchRequest_max_items, RESULTS_PER_QUERY_LIMIT.
    destruct (raw_queries raw) as [qs|]; [|discriminate].
    destruct ((1 <=? List.length qs)%nat && (List.length qs <=? 25)%nat) eqn:Hq;
      [|discriminate].
    destruct (int_field "max_per_query" 5 1 20 (raw_max_per_query raw)) as [err|m]
      eqn:Hm; [discriminate|].
    intros [= <-]. cbn [queries max_per_query raw_of_SearchRequest raw_queries
                        raw_max_per_query].
    destruct (Hint "max_per_query" 1%Z 20%Z _ m ltac:(lia) Hm) as [Hb Hm'].
    rewrite Hq, Hm'. apply andb_prop in Hq as [Hq1 Hq2].
    apply Nat.leb_le in Hq1. apply Nat.leb_le in Hq2. repeat split; lia.
  - unfold validate_LogSearchRequest, str_field, RESULTS_PER_QUERY_LIMIT.
    destruct (raw_log_text raw) as [t|]; [|discriminate].
    destruct (1 <=? String.length t)%nat eqn:Ht; [|discriminate].
    destruct (int_field "max_queries" 5 1 25 (raw_max_queries raw)) as [err|n]
      eqn:Hn; [discriminate|].
    destruct (int_field "max_per_query" 5 1 20 (raw_log_max_per_query raw))
      as [err|m] eqn:Hm; [discriminate|].
    intros [= <-]. cbn [log_text max_queries log_max_per_query raw_of_LogSearchRequest
                        raw_log_text raw_max_queries raw_log_max_per_query].
    destruct (Hint "max_queries" 1%Z 25%Z _ n ltac:(lia) Hn) as [Hbn Hn'].
    destruct (Hint "max_per_query" 1%Z 20%Z _ m ltac:(lia) Hm) as [Hbm Hm'].
    rewrite Ht, Hn', Hm'. apply Nat.leb_le in Ht. repeat split; lia.
Qed.

Lemma validated_requests_within_bounds_and_stable_witness :
  validate_SearchRequest (raw_of_SearchRequest {| queries := ["q"]; max_per_query := 5 |})
  = inr {| queries := ["q"]; max_per_query := 5 |} /\
  validate_LogSearchRequest
    (raw_of_LogSearchRequest
       {| log_text := "ORA-00600"; max_queries := 5; log_max_per_query := 5 |})
  = inr {| log_text := "ORA-00600"; max_queries := 5; log_max_per_query := 5 |}.
Proof.
  destruct validated_requests_within_bounds_and_stable as [Hs Hl].
  split.
  - apply (Hs {| raw_queries := Some ["q"]; raw_max_per_query := None |}).
    reflexivity.
  - apply (Hl {| raw_log_text := Some "ORA-00600"; raw_max_queries := None;
                 raw_log_max_per_query := None |}).
    reflexivity.
Defined.







(** ** The tool schema against the request models *)

(** X12.  The numeric bounds and defaults that [LLM_TOOLS] declares are
    those the request models enforce: [LogSearchRequest] accepts a
    non-empty text exactly with [max_queries] and [max_per_query] inside
    the [search_mos_from_log] schema's minimum and maximum, and
    [SearchRequest] accepts an admissible query list exactly with
    [max_per_query] inside the [search_mos] schema's; an absent number
    becomes the schema's default.  The schema puts no [minLength] on
    [log_text], which the model refuses when empty. *)
Theorem tool_schema_numbers_match_models :
  (forall (t : string) (n m : Z),
      accepted (validate_LogSearchRequest
                  {| raw_log_text := Some t; raw_max_queries := Some n;
                     raw_log_max_per_query := Some m |})
      = negb (String.eqb t "")
        && within_int (tool_param_int "search_mos_from_log" "max_queries" "minimum")
                      (tool_param_int "search_mos_from_log" "max_queries" "maximum") n
        && within_int (tool_param_int "search_mos_from_log" "max_per_query" "minimum")
                      (tool_param_int "search_mos_from_log" "max_per_query" "maximum") m) /\
  (forall (qs : list string) (m : Z),
      accepted (validate_SearchRequest
                  {| raw_queries := Some qs; raw_max_per_query := Some m |})
      = http_accepts_queries qs
        && within_int (tool_param_int "search_mos" "max_per_query" "minimum")
                      (tool_param_int "search_mos" "max_per_query" "maximum") m) /\
  (forall t : string,
      match validate_LogSearchRequest
              {| raw_log_text := Some t; raw_max_queries := None;
                 raw_log_max_per_query := None |} with
      | inr req =>
          Some (max_queries req)
          = tool_param_int "search_mos_from_log" "max_queries" "default" /\
          Some (log_max_per_query req)
          = tool_param_int "search_mos_from_log" "max_per_query" "default"
      | inl _ => t = ""
      end) /\
  (forall qs : list string,
      match validate_SearchRequest
              {| raw_queries := Some qs; raw_max_per_query := None |} with
      | inr req =>
          Some (max_per_query req) = tool_param_int "search_mos" "max_per_query" "default"
      | inl _ => http_accepts_queries qs = false
      end) /\
  tool_param_int "search_mos_from_log" "log_text" "minLength" = None.
Proof.
  change (tool_param_int "search_mos_from_log" "max_queries" "minimum") with (Some 1%Z).
  change (tool_param_int "search_mos_from_log" "max_queries" "maximum") with (Some 25%Z).
  change (tool_param_int "search_mos_from_log" "max_per_query" "minimum")
    with (Some 1%Z).
  change (tool_param_int "search_mos_from_log" "max_per_query" "maximum")
    with (Some 20%Z).
  change (tool_param_int "search_mos" "max_per_query" "minimum") with (Some 1%Z).
  change (tool_param_int "search_mos" "max_per_query" "maximum") with (Some 20%Z).
  change (tool_param_int "search_mos_from_log" "max_queries" "default") with (Some 5%Z).
  change (tool_param_int "search_mos_from_log" "max_per_query" "default")
    with (Some 5%Z).
  change (tool_param_int "search_mos" "max_per_query" "default") with (Some 5%Z).
  split; [|split; [|split; [|split; [|reflexivity]]]].
  - intros t n m.
    unfold validate_LogSearchRequest, str_field, int_field, within_int,
      RESULTS_PER_QUERY_LIMIT.
    cbn [raw_log_text raw_max_queries raw_log_max_per_query].
    rewrite nonempty_length.
    destruct (String.eqb t ""); [reflexivity|].
    destruct ((1 <=? n) && (n <=? 25))%Z; [|reflexivity].
    now destruct ((1 <=? m) && (m <=? 20))%Z.
  - intros qs m.
    unfold validate_SearchRequest, http_accepts_queries, int_field, within_int,
      RESULTS_PER_QUERY_LIMIT.
    cbn [raw_queries raw_max_per_query].
    destruct (list_field _ _ _ _); [reflexivity|].
    now destruct ((1 <=? m) && (m <=? 20))%Z.
  - intros t.
    unfold validate_LogSearchRequest, str_field, int_field.
    cbn [raw_log_text raw_max_queries raw_log_max_per_query].
    rewrite nonempty_length.
    destruct (String.eqb_spec t ""); cbn; [assumption | now split].
  - intros qs.
    unfold validate_SearchRequest, http_accepts_queries, int_field.
    cbn [raw_queries raw_max_per_query].
    now destruct (list_field _ _ _ _).
Qed.

(** ** [HEADLESS_DEFAULT] *)

Lemma ascii_lower_upper (c : ascii) : ascii_lower (ascii_upper c) = ascii_lower c.
Proof. destruct c as [[] [] [] [] [] [] [] []]; reflexivity. Qed.

Lemma ascii_lower_lower (c : ascii) : ascii_lower (ascii_lower c) = ascii_lower c.
Proof. destruct c as [[] [] [] [] [] [] [] []]; reflexivity. Qed.

Lemma str_lower_upper (s : string) : str_lower (str_upper s) = str_lower s.
Proof.
  induction s as [|c s IH]; [reflexivity|].
  cbn. now rewrite ascii_lower_upper, IH.
Qed.

Lemma str_lower_lower (s : string) : str_lower (str_lower s) = str_lower s.
Proof.
  induction s as [|c s IH]; [reflexivity|].
  cbn. now rewrite ascii_lower_lower, IH.
Qed.

Lemma getenv_default_setenv (e : OsEnviron) (name v d : string) :
  getenv_default (setenv name v e) name d = v.
Proof. unfold getenv_default, setenv. cbn. now rewrite String.eqb_refl. Qed.

(** X13.  [HEADLESS_DEFAULT] reads [MOS_HEADLESS] without regard to
    letter case: a value, its upper-case and its lower-case spelling give
    the same mode; it is headless exactly for the spellings of [1],
    [true] and [yes], and headless when the variable is not set. *)
Theorem HEADLESS_DEFAULT_ignores_case (e : OsEnviron) (v : string) :
  HEADLESS_DEFAULT (setenv "MOS_HEADLESS" (str_upper v) e)
  = HEADLESS_DEFAULT (setenv "MOS_HEADLESS" v e) /\
  HEADLESS_DEFAULT (setenv "MOS_HEADLESS" (str_lower v) e)
  = HEADLESS_DEFAULT (setenv "MOS_HEADLESS" v e) /\
  HEADLESS_DEFAULT (setenv "MOS_HEADLESS" v e)
  = (String.eqb (str_lower v) "1" || String.eqb (str_lower v) "true"
     || String.eqb (str_lower v) "yes") /\
  match getenv e "MOS_HEADLESS" with
  | None => HEADLESS_DEFAULT e = true
  | Some v' => HEADLESS_DEFAULT e = HEADLESS_DEFAULT (setenv "MOS_HEADLESS" v' e)
  end.
Proof.
  unfold HEADLESS_DEFAULT. rewrite !getenv_default_setenv.
  rewrite str_lower_upper, str_lower_lower.
  repeat split.
  - cbn [existsb]. now rewrite orb_false_r, orb_assoc.
  - destruct (getenv e "MOS_HEADLESS") as [v'|] eqn:Hv.
    + rewrite getenv_default_setenv. unfold getenv_default. now rewrite Hv.
    + unfold getenv_default. now rewrite Hv.
Qed.
